(** * weather-bot: the agent turn loop, its reply classifier and its history
    reconstruction, embedded from the [AgentClient] class
    ([src/lib/agent/tools.ts], which holds the tools and the agent client). *)

From Stdlib Require Import List NArith Bool Ascii String Lia Arith Sorted.
From Stdlib Require Import DecimalString.
Import ListNotations.

(* ================================================================== *)
(** ** JavaScript strings

    A JavaScript string is a sequence of UTF-16 code units.  The built-in
    methods the agent uses ([startsWith], [replace], [trim], [split],
    [parseFloat], [match]) are given here on that representation. *)
(* ================================================================== *)

Module JS.

Abbreviation codeunit := N (only parsing).
Abbreviation jsstring := (list N) (only parsing).

(** String literals of the source are written [js "..."]. *)
Definition js (s : string) : jsstring :=
  map N_of_ascii (list_ascii_of_string s).
Arguments js : simpl never.

Definition jsstring_eq_dec : forall a b : jsstring, {a = b} + {a <> b} :=
  list_eq_dec N.eq_dec.

Definition between (lo hi c : N) : bool := (lo <=? c)%N && (c <=? hi)%N.

(** WhiteSpace and LineTerminator of ECMAScript: what [trim] strips and
    what [\s] matches. *)
Definition isWhiteSpace (c : codeunit) : bool :=
  between 9 13 c          (* TAB LF VT FF CR *)
  || (c =? 32)%N          (* SP *)
  || (c =? 160)%N         (* NBSP *)
  || (c =? 5760)%N        (* U+1680 *)
  || between 8192 8202 c  (* U+2000 .. U+200A *)
  || (c =? 8232)%N        (* LS *)
  || (c =? 8233)%N        (* PS *)
  || (c =? 8239)%N        (* U+202F *)
  || (c =? 8287)%N        (* U+205F *)
  || (c =? 12288)%N       (* U+3000 *)
  || (c =? 65279)%N.      (* U+FEFF *)

Definition isDigit (c : codeunit) : bool := between 48 57 c.

(** [\w] without the unicode and ignore-case flags: [A-Za-z0-9_]. *)
Definition isWordChar (c : codeunit) : bool :=
  between 97 122 c || between 65 90 c || isDigit c || (c =? 95)%N.

(** [s.startsWith(k)] *)
Fixpoint startsWith (s k : jsstring) {struct k} : bool :=
  match k, s with
  | [], _ => true
  | _ :: _, [] => false
  | x :: k', c :: s' => (c =? x)%N && startsWith s' k'
  end.

(** [s.includes(k)] *)
Fixpoint includes (s k : jsstring) : bool :=
  startsWith s k ||
  match s with
  | [] => false
  | _ :: s' => includes s' k
  end.

(** [s.replace(pat, rep)] with a string pattern: the first occurrence of
    [pat], scanning from the left, is replaced; a string without an
    occurrence is returned as it is.  (The replacement strings of the
    source contain no [$].) *)
Fixpoint replace (s pat rep : jsstring) : jsstring :=
  if startsWith s pat then rep ++ skipn (List.length pat) s
  else match s with
       | [] => []
       | c :: s' => c :: replace s' pat rep
       end.

(** [s.replace(/c/g, empty)] for a one-character pattern [c]: every
    occurrence is removed. *)
Definition removeAll (c : codeunit) (s : jsstring) : jsstring :=
  filter (fun x => negb (x =? c)%N) s.

(** The longest prefix of [s] whose characters satisfy [p], and the rest. *)
Fixpoint span (p : codeunit -> bool) (s : jsstring) : jsstring * jsstring :=
  match s with
  | [] => ([], [])
  | c :: s' =>
      if p c then let (a, b) := span p s' in (c :: a, b)
      else ([], s)
  end.

Definition trimStart (s : jsstring) : jsstring := snd (span isWhiteSpace s).
Definition trimEnd (s : jsstring) : jsstring := rev (trimStart (rev s)).
Definition trim (s : jsstring) : jsstring := trimEnd (trimStart s).

(** [s.split(sep)] for a one-character separator. *)
Fixpoint split (sep : codeunit) (s : jsstring) : list jsstring :=
  match s with
  | [] => [[]]
  | c :: s' =>
      if (c =? sep)%N then [] :: split sep s'
      else match split sep s' with
           | [] => [[c]]
           | h :: t => (c :: h) :: t
           end
  end.

(** A JavaScript number as far as the agent looks at it: [NaN], or the
    number denoted by the longest decimal literal that starts the given
    text (the text is kept, the value is a function of it). *)
Inductive number :=
| NaN
| NumberOf (text : jsstring).

Definition isNaN (x : number) : bool :=
  match x with NaN => true | NumberOf _ => false end.

(** Does a StrDecimalLiteral start here (sign already consumed)? *)
Definition startsUnsignedLiteral (s : jsstring) : bool :=
  startsWith s (js "Infinity") ||
  match s with
  | c :: s' =>
      isDigit c ||
      ((c =? 46)%N && match s' with d :: _ => isDigit d | [] => false end)
  | [] => false
  end.

Definition startsLiteral (s : jsstring) : bool :=
  match s with
  | c :: s' =>
      if (c =? 43)%N || (c =? 45)%N then startsUnsignedLiteral s'
      else startsUnsignedLiteral s
  | [] => false
  end.

(** [parseFloat(s)]: leading white space is skipped; the result is [NaN]
    when no decimal literal starts the rest. *)
Definition parseFloat (s : jsstring) : number :=
  let t := trimStart s in
  if startsLiteral t then NumberOf t else NaN.

(** [!s] on a [string | null]: null and the empty string are falsy. *)
Definition falsy (s : option jsstring) : bool :=
  match s with
  | None | Some [] => true
  | Some (_ :: _) => false
  end.

(** [s || null] *)
Definition orNull (s : option jsstring) : option jsstring :=
  if falsy s then None else s.

End JS.
Import JS.

(* ================================================================== *)
(** ** Data model *)
(* ================================================================== *)

(** [L.AgentActivityType] of the Linear SDK. *)
Inductive AgentActivityType :=
| Action | Elicitation | Error | Prompt | Response | Thought.

Definition AgentActivityType_eqb (a b : AgentActivityType) : bool :=
  match a, b with
  | Action, Action | Elicitation, Elicitation | Error, Error
  | Prompt, Prompt | Response, Response | Thought, Thought => true
  | _, _ => false
  end.

(** The closed set of tool names ([ToolName] of [types.ts]); the cases of the
    [switch] in [executeAction] enumerate it. *)
Inductive ToolName := getCoordinates | getWeather | getTime.

Definition ToolName_text (t : ToolName) : jsstring :=
  match t with
  | getCoordinates => js "getCoordinates"
  | getWeather => js "getWeather"
  | getTime => js "getTime"
  end.

Definition toolNames : list ToolName := [getCoordinates; getWeather; getTime].

(** Modelled from the spec: [isToolName] of [types.ts], which is not part of
    the sources at hand.  "Tool Name -- one of a closed, statically known set
    (getCoordinates, getWeather, getTime); validated at classification
    time".  [toToolName] is the guard together with the cast
    [toolNameRaw as ToolName] that follows it. *)
Definition toToolName (name : jsstring) : option ToolName :=
  find (fun t => if jsstring_eq_dec name (ToolName_text t) then true else false)
       toolNames.

Definition isToolName (name : jsstring) : bool :=
  match toToolName name with Some _ => true | None => false end.

(** [Content]: the payload of an agent activity.  [{type, body}] for the
    text-carrying types; [{type: Action, action, parameter}] before the tool
    ran and [{type: Action, action, parameter, result}] after. *)
Inductive Content :=
| BodyContent (type : AgentActivityType) (body : jsstring)
| ActionContent (action : ToolName) (parameter : option jsstring)
                (result : option jsstring).

Definition content_type (c : Content) : AgentActivityType :=
  match c with
  | BodyContent t _ => t
  | ActionContent _ _ _ => Action
  end.

(** LangChain messages. *)
Inductive BaseMessage :=
| HumanMessage (content : jsstring)
| AIMessage (content : jsstring)
| SystemMessage (content : jsstring).

(** What a [throw] carries: an [Error] with its message, the
    [UnreachableCaseError] of [types.ts], or a value that is not an [Error]
    (only the external services can throw such a value). *)
Inductive Exn :=
| JsError (message : jsstring)
| UnreachableCaseError (value : AgentActivityType)
| NotAnError.

(** The outcome of a computation that may throw. *)
Inductive Outcome (A : Type) :=
| Ok (a : A)
| Throw (e : Exn)
| Diverge.
Arguments Ok {A} a.
Arguments Throw {A} e.
Arguments Diverge {A}.

(* ================================================================== *)
(** ** The response classifier: [mapResponseToLinearActivityContent] *)
(* ================================================================== *)

(** The object literal [typeToKeyword]; [Object.entries] lists it in this
    (insertion) order. *)
Definition typeToKeyword : list (AgentActivityType * jsstring) :=
  [ (Thought, js "THINKING:");
    (Action, js "ACTION:");
    (Response, js "RESPONSE:");
    (Elicitation, js "ELICITATION:");
    (Error, js "ERROR:") ].

(** [typeToKeyword[type]]; a missing key reads [undefined], which [replace]
    turns into the text "undefined". *)
Definition keywordOf (type : AgentActivityType) : jsstring :=
  match find (fun e => AgentActivityType_eqb (fst e) type) typeToKeyword with
  | Some (_, keyword) => keyword
  | None => js "undefined"
  end.

(** One attempt of [/ACTION:\s*(\w+)\(([^)]+)\)/] at the start of [s]:
    the two captures.  The three repetitions run over classes that exclude
    the character that must follow them, so the greedy choice is the only
    one that can succeed. *)
Definition matchActionHere (s : jsstring) : option (jsstring * jsstring) :=
  if startsWith s (js "ACTION:") then
    let (_, s1) := span isWhiteSpace (skipn 7 s) in
    let (name, s2) := span isWordChar s1 in
    match name, s2 with
    | _ :: _, 40%N :: s3 =>
        let (params, s4) := span (fun c => negb (c =? 41)%N) s3 in
        match params, s4 with
        | _ :: _, 41%N :: _ => Some (name, params)
        | _, _ => None
        end
    | _, _ => None
    end
  else None.

(** [response.match(/ACTION:\s*(\w+)\(([^)]+)\)/)]: the leftmost start
    position at which the pattern matches. *)
Fixpoint matchAction (s : jsstring) : option (jsstring * jsstring) :=
  match matchActionHere s with
  | Some m => Some m
  | None =>
      match s with
      | [] => None
      | _ :: s' => matchAction s'
      end
  end.

Definition mapResponseToLinearActivityContent (response : jsstring)
  : Outcome Content :=
  let mappedType :=
    find (fun e => startsWith response (snd e)) typeToKeyword in
  let type :=
    match mappedType with
    | Some (t, _) => t
    | None => Thought
    end in
  match type with
  | Thought | Response | Elicitation | Error =>
      Ok (BodyContent type (trim (replace response (keywordOf type) [])))
  | Action =>
      match matchAction response with
      | Some (toolNameRaw, params) =>
          match toToolName toolNameRaw with
          | None => Throw (JsError (js "Invalid tool name: " ++ toolNameRaw))
          | Some toolName =>
              Ok (ActionContent toolName (orNull (Some params)) None)
          end
      | None => Throw (UnreachableCaseError type)  (* falls through *)
      end
  | Prompt => Throw (UnreachableCaseError type)
  end.

(* ================================================================== *)
(** ** The outside world

    The language model, the three tools and the Linear activity store are
    external services.  Every interaction with them is recorded, in order, in
    a trace; what a service answers may depend on everything that happened
    before, so the services are functions of the trace so far.  The model and
    the tools may throw.  The store is taken to answer every request: a write
    is acknowledged and a read returns a page. *)
(* ================================================================== *)

(** A node of [agentSession.activities()]. *)
Record Activity := {
  content : Content;
  createdAt : N
}.

(** A page of activities with its [pageInfo]. *)
Record Connection := {
  nodes : list Activity;
  hasNextPage : bool;
  endCursor : option jsstring
}.

(** A call of one of the exported tools, with the arguments it receives. *)
Inductive ToolCall :=
| CallGetCoordinates (city_name : jsstring)
| CallGetWeather (lat long : number)
| CallGetTime (lat long : number).

Definition tool_of_call (c : ToolCall) : ToolName :=
  match c with
  | CallGetCoordinates _ => getCoordinates
  | CallGetWeather _ _ => getWeather
  | CallGetTime _ _ => getTime
  end.

Inductive Event :=
| EvActivities (agentSessionId : jsstring) (after : option jsstring)
               (page : Connection)
| EvInvoke (allMessages : list BaseMessage) (reply : Exn + jsstring)
| EvTool (call : ToolCall) (answer : Exn + jsstring)
| EvCreateAgentActivity (agentSessionId : jsstring) (c : Content)
| EvSetTimeout (ms : N).

Definition Trace := list Event.

Record Environment := {
  (** the system prompt exported by [prompt.ts] *)
  prompt : jsstring;
  (** the [message] of an [UnreachableCaseError] built from a value *)
  unreachableCaseMessage : AgentActivityType -> jsstring;
  (** [JSON.stringify] on what a tool returns *)
  JSON_stringify : jsstring -> jsstring;
  (** [this.model.invoke(allMessages)], its [content] or what it throws *)
  model_invoke : Trace -> list BaseMessage -> Exn + jsstring;
  (** a tool of [tools.ts] called with its arguments *)
  tool_invoke : Trace -> ToolCall -> Exn + jsstring;
  (** [agentSession.activities({after})] of the session *)
  session_activities : Trace -> jsstring -> option jsstring -> Connection
}.

(** Computations over the trace that may throw. *)
Definition M (A : Type) : Type := Trace -> Outcome A * Trace.

Definition ret {A} (a : A) : M A := fun tr => (Ok a, tr).

Definition bind {A B} (m : M A) (k : A -> M B) : M B :=
  fun tr =>
    match m tr with
    | (Ok a, tr') => k a tr'
    | (Throw e, tr') => (Throw e, tr')
    | (Diverge, tr') => (Diverge, tr')
    end.

Definition throw {A} (e : Exn) : M A := fun tr => (Throw e, tr).

Definition diverge {A} : M A := fun tr => (Diverge, tr).

(** [try { body } catch (error) { handler }] *)
Definition try_catch {A} (body : M A) (handler : Exn -> M A) : M A :=
  fun tr =>
    match body tr with
    | (Throw e, tr') => handler e tr'
    | r => r
    end.

Definition lift {A} (o : Outcome A) : M A := fun tr => (o, tr).

Declare Scope agent_scope.
Delimit Scope agent_scope with agent.
Notation "x <- m ;; k" := (bind m (fun x => k))
  (at level 100, m at next level, right associativity) : agent_scope.
Notation "m ;;; k" := (bind m (fun _ => k))
  (at level 100, right associativity) : agent_scope.
Open Scope agent_scope.

Definition of_answer (r : Exn + jsstring) : Outcome jsstring :=
  match r with
  | inl e => Throw e
  | inr s => Ok s
  end.

Section Agent.

Variable env : Environment.

(** [error instanceof Error ? error.message : "Unknown error"] *)
Definition errorMessage (error : Exn) : jsstring :=
  match error with
  | JsError message => message
  | UnreachableCaseError value => unreachableCaseMessage env value
  | NotAnError => js "Unknown error"
  end.

(** [this.linearClient.createAgentActivity({agentSessionId, content})]:
    the store appends the activity and acknowledges. *)
Definition createAgentActivity (agentSessionId : jsstring) (c : Content)
  : M unit :=
  fun tr => (Ok tt, tr ++ [EvCreateAgentActivity agentSessionId c]).

(** [await new Promise((resolve) => setTimeout(resolve, ms))] *)
Definition setTimeout (ms : N) : M unit :=
  fun tr => (Ok tt, tr ++ [EvSetTimeout ms]).

Definition invokeModel (allMessages : list BaseMessage) : M jsstring :=
  fun tr =>
    let reply := model_invoke env tr allMessages in
    (of_answer reply, tr ++ [EvInvoke allMessages reply]).

Definition invokeTool (call : ToolCall) : M jsstring :=
  fun tr =>
    let answer := tool_invoke env tr call in
    (of_answer answer, tr ++ [EvTool call answer]).

Definition activities (agentSessionId : jsstring) (after : option jsstring)
  : M Connection :=
  fun tr =>
    let page := session_activities env tr agentSessionId after in
    (Ok page, tr ++ [EvActivities agentSessionId after page]).

(** *** [callLangGraphAgent] *)
Definition callLangGraphAgent (messages : list BaseMessage) : M jsstring :=
  try_catch
    (let systemMessage := SystemMessage (prompt env) in
     let allMessages := systemMessage :: messages in
     invokeModel allMessages)
    (fun error =>
       throw (JsError (js "Anthropic API error: " ++ errorMessage error))).

(** *** [executeAction] *)
Definition parseCoordinates (parameter : jsstring) : list number :=
  map (fun p => parseFloat (trim p)) (split 44%N parameter).

Definition validCoordinates (paramParts : list number) : bool :=
  (2 <=? List.length paramParts)
  && negb (isNaN (nth 0 paramParts NaN))
  && negb (isNaN (nth 1 paramParts NaN)).

Definition executeAction (action : ToolName) (parameter : option jsstring)
  : M jsstring :=
  if falsy parameter then
    throw (JsError (js "Parameter is required for action execution"))
  else
    let parameter := match parameter with Some p => p | None => [] end in
    match action with
    | getCoordinates =>
        r <- invokeTool (CallGetCoordinates (removeAll 34%N parameter)) ;;
        ret (JSON_stringify env r)
    | getWeather =>
        let paramParts := parseCoordinates parameter in
        if validCoordinates paramParts then
          let lat := nth 0 paramParts NaN in
          let long := nth 1 paramParts NaN in
          r <- invokeTool (CallGetWeather lat long) ;;
          ret (JSON_stringify env r)
        else throw (JsError (js "Invalid parameter for getWeather action"))
    | getTime =>
        let timeParamParts := parseCoordinates parameter in
        if validCoordinates timeParamParts then
          let lat := nth 0 timeParamParts NaN in
          let long := nth 1 timeParamParts NaN in
          invokeTool (CallGetTime lat long)
        else throw (JsError (js "Invalid parameter for getTime action"))
    end.

(** *** [generateMessagesFromPreviousActivities] *)

(** The [while (hasNextPage && activitiesConnection.pageInfo.endCursor)]
    loop; [fuel] bounds the number of further pages read. *)
Fixpoint fetchRemaining (fuel : nat) (agentSessionId : jsstring)
         (allActivities : list Activity) (activitiesConnection : Connection)
         (hasNext : bool) : M (list Activity) :=
  if hasNext && negb (falsy (endCursor activitiesConnection)) then
    match fuel with
    | O => diverge
    | S fuel' =>
        next <- activities agentSessionId
                  (endCursor activitiesConnection) ;;
        fetchRemaining fuel' agentSessionId
          (allActivities ++ nodes next) next (hasNextPage next)
    end
  else ret allActivities.

Definition isPromptOrResponse (activity : Activity) : bool :=
  AgentActivityType_eqb (content_type (content activity)) Prompt
  || AgentActivityType_eqb (content_type (content activity)) Response.

Definition body_of (c : Content) : jsstring :=
  match c with
  | BodyContent _ body => body
  | ActionContent _ _ _ => []
  end.

Definition toMessage (activity : Activity) : BaseMessage :=
  let body := body_of (content activity) in
  if AgentActivityType_eqb (content_type (content activity)) Prompt
  then HumanMessage body
  else AIMessage body.

Definition generateMessagesFromPreviousActivities
           (fuel : nat) (agentSessionId : jsstring)
  : M (list BaseMessage) :=
  activitiesConnection <- activities agentSessionId None ;;
  allActivities <- fetchRemaining fuel agentSessionId
                     (nodes activitiesConnection) activitiesConnection
                     (hasNextPage activitiesConnection) ;;
  ret (map toMessage (rev (filter isPromptOrResponse allActivities))).

(** *** [handleUserPrompt] *)

Definition MAX_ITERATIONS : nat := 10.

Definition maxIterationsMessage : jsstring :=
  js "The agent has reached the maximum number of iterations and will now stop.".

(** The body of the [try] block: the message list after it and whether it
    set [taskComplete].  (Nothing can throw after [messages.push], so the
    [catch] sees [messages] unchanged.) *)
Definition tryIteration (agentSessionId : jsstring)
           (messages : list BaseMessage) : M (list BaseMessage * bool) :=
  response <- callLangGraphAgent messages ;;
  c <- lift (mapResponseToLinearActivityContent response) ;;
  match c with
  | BodyContent Thought _ =>
      createAgentActivity agentSessionId c ;;;
      let messages := messages ++ [AIMessage response] in
      setTimeout 1000%N ;;;
      ret (messages, false)
  | ActionContent toolName parameter _ =>
      createAgentActivity agentSessionId c ;;;
      toolResult <- executeAction toolName parameter ;;
      let messages :=
        messages ++ [AIMessage response;
                     HumanMessage (js "Tool result: " ++ toolResult)] in
      let resultContent :=
        ActionContent toolName (orNull parameter) (Some toolResult) in
      createAgentActivity agentSessionId resultContent ;;;
      setTimeout 1000%N ;;;
      ret (messages, false)
  | BodyContent Response _
  | BodyContent Error _
  | BodyContent Elicitation _ =>
      createAgentActivity agentSessionId c ;;;
      ret (messages, true)
  | BodyContent _ _ => ret (messages, false)
  end.

(** The [catch] block of an iteration. *)
Definition catchIteration (agentSessionId : jsstring)
           (messages : list BaseMessage) (error : Exn)
  : M (list BaseMessage * bool) :=
  let errorMessage := js "Agent error: " ++ errorMessage error in
  createAgentActivity agentSessionId (BodyContent Error errorMessage) ;;;
  ret (messages, true).

(** [while (!taskComplete && iterations < this.MAX_ITERATIONS) { ... }];
    the result is the final [messages], [taskComplete] and [iterations].
    [fuel] bounds the unfolding of the loop, the guard is the source's. *)
Fixpoint turnLoop (fuel : nat) (agentSessionId : jsstring)
         (messages : list BaseMessage) (taskComplete : bool)
         (iterations : nat) : M (list BaseMessage * bool * nat) :=
  if negb taskComplete && (iterations <? MAX_ITERATIONS) then
    match fuel with
    | O => diverge
    | S fuel' =>
        let iterations := S iterations in
        st <- try_catch (tryIteration agentSessionId messages)
                        (catchIteration agentSessionId messages) ;;
        turnLoop fuel' agentSessionId (fst st) (snd st) iterations
    end
  else ret (messages, taskComplete, iterations).

(** The [if] after the loop. *)
Definition afterLoop (agentSessionId : jsstring) (taskComplete : bool)
           (iterations : nat) : M unit :=
  if negb taskComplete && (MAX_ITERATIONS <=? iterations) then
    createAgentActivity agentSessionId
      (BodyContent Error maxIterationsMessage)
  else ret tt.

Definition handleUserPrompt (fuel : nat) (agentSessionId userPrompt : jsstring)
  : M unit :=
  previous <- generateMessagesFromPreviousActivities fuel agentSessionId ;;
  (* [userPrompt || empty] is [userPrompt] itself on a string *)
  let messages := HumanMessage userPrompt :: previous in
  final <- turnLoop fuel agentSessionId messages false 0 ;;
  let '(_, taskComplete, iterations) := final in
  afterLoop agentSessionId taskComplete iterations.

End Agent.


(* ================================================================== *)
(** ** Observations on traces *)
(* ================================================================== *)

Definition isInvoke (e : Event) : bool :=
  match e with EvInvoke _ _ => true | _ => false end.

(** The number of calls of the model recorded in a trace. *)
Definition modelCalls (tr : Trace) : nat :=
  List.length (filter isInvoke tr).

(** The activities written to the store, in the order of the writes. *)
Fixpoint published (tr : Trace) : list Content :=
  match tr with
  | [] => []
  | EvCreateAgentActivity _ c :: tr' => c :: published tr'
  | _ :: tr' => published tr'
  end.

(** The three variants that end the turn loop. *)
Definition isTerminalType (t : AgentActivityType) : bool :=
  match t with
  | Response | Elicitation | Error => true
  | _ => false
  end.

Definition isErrorContent (c : Content) : bool :=
  AgentActivityType_eqb (content_type c) Error.

(** A session whose activities the store serves in the pages [pages], read
    from the cursor [after] on: every page but the last announces a next page
    and carries the cursor that leads to it, the last one announces none. *)
Inductive Paging (env : Environment) (agentSessionId : jsstring)
  : Trace -> option jsstring -> list Connection -> Prop :=
| Paging_last tr after page :
    session_activities env tr agentSessionId after = page ->
    hasNextPage page = false ->
    Paging env agentSessionId tr after [page]
| Paging_next tr after page cursor rest :
    session_activities env tr agentSessionId after = page ->
    hasNextPage page = true ->
    endCursor page = Some cursor ->
    cursor <> [] ->
    Paging env agentSessionId
           (tr ++ [EvActivities agentSessionId after page])
           (Some cursor) rest ->
    Paging env agentSessionId tr after (page :: rest).

(** The reads of the store that serve these pages, as events. *)
Fixpoint pageReads (agentSessionId : jsstring) (after : option jsstring)
         (pages : list Connection) : Trace :=
  match pages with
  | [] => []
  | page :: rest =>
      EvActivities agentSessionId after page
      :: pageReads agentSessionId (endCursor page) rest
  end.

Definition allNodes (pages : list Connection) : list Activity :=
  List.concat (map nodes pages).

(* ================================================================== *)
(** ** A scripted world, to run the agent on concrete inputs *)
(* ================================================================== *)

(** The model answers with the replies of a script, one per call; the tools
    and the store are given as tables. *)
Definition scripted (replies : list (Exn + jsstring))
           (tools : ToolCall -> Exn + jsstring)
           (store : option jsstring -> Connection) : Environment :=
  {| prompt := js "You are a weather assistant.";
     unreachableCaseMessage := fun _ => js "Unreachable case";
     JSON_stringify := fun s => s;
     model_invoke := fun tr _ =>
       nth (modelCalls tr) replies (inl (JsError (js "script exhausted")));
     tool_invoke := fun _ call => tools call;
     session_activities := fun _ _ after => store after |}.

Definition emptyStore (after : option jsstring) : Connection :=
  {| nodes := []; hasNextPage := false; endCursor := None |}.

(** The tools as the agent client reaches them.  [tools.ts] exports
    [getCoordinates], [getWeather] and [getTime] as LangChain [tool(...)]
    objects, and [executeAction] calls them like functions: such a call
    throws a [TypeError], whatever its arguments (the message is the one of a
    direct call; a bundler may name the callee differently). *)
Definition exportedTools (call : ToolCall) : Exn + jsstring :=
  inl (JsError (ToolName_text (tool_of_call call) ++ js " is not a function")).

(** The scenario of the specification: a thought, a tool call, a response. *)
Definition parisWorld : Environment :=
  scripted
    [ inr (js "THINKING: I should find coordinates first");
      inr (js "ACTION: getCoordinates(Paris)");
      inr (js "RESPONSE: It is 18C and partly cloudy in Paris.") ]
    exportedTools emptyStore.

(** A model that only ever thinks. *)
Definition thinkingWorld : Environment :=
  {| prompt := js "You are a weather assistant.";
     unreachableCaseMessage := fun _ => js "Unreachable case";
     JSON_stringify := fun s => s;
     model_invoke := fun _ _ => inr (js "THINKING: still thinking");
     tool_invoke := fun _ call => exportedTools call;
     session_activities := fun _ _ after => emptyStore after |}.

(** A model that asks for the weather at coordinates that do not parse. *)
Definition unparsableWorld : Environment :=
  scripted [ inr (js "ACTION: getWeather(abc,def)") ] exportedTools emptyStore.

(** A model that asks for the coordinates of Paris. *)
Definition coordinatesWorld : Environment :=
  scripted [ inr (js "ACTION: getCoordinates(Paris)") ] exportedTools emptyStore.

Definition activity (type : AgentActivityType) (body : string) (at_ : N)
  : Activity :=
  {| content := BodyContent type (js body); createdAt := at_ |}.

(** A session with an earlier exchange, served newest first on two pages. *)
Definition newerPage : Connection :=
  {| nodes := [ activity Response "It is sunny in Paris." 4;
                activity Thought "I should look up Paris" 3 ];
     hasNextPage := true;
     endCursor := Some (js "cursor-1") |}.

Definition olderPage : Connection :=
  {| nodes := [ {| content := ActionContent getCoordinates (Some (js "Paris"))
                                (Some (js "{lat:48.85,lon:2.35}"));
                   createdAt := 2 |};
                activity Prompt "What is the weather in Paris?" 1 ];
     hasNextPage := false;
     endCursor := None |}.

Definition twoPageStore (after : option jsstring) : Connection :=
  match after with
  | None => newerPage
  | Some _ => olderPage
  end.

Definition historyWorld : Environment :=
  scripted [ inr (js "RESPONSE: It is still sunny.") ] exportedTools twoPageStore.

(* ================================================================== *)
(** ** Notions used to state the properties *)
(* ================================================================== *)

(** What [/ACTION:\s*(\w+)\(([^)]+)\)/] accepts at the start of [s], with its
    two captures, read off the pattern. *)
Definition ActionSyntax (s name params : jsstring) : Prop :=
  exists ws rest,
    s = js "ACTION:" ++ ws ++ name ++ 40%N :: params ++ 41%N :: rest
    /\ forallb isWhiteSpace ws = true
    /\ name <> [] /\ forallb isWordChar name = true
    /\ params <> [] /\ forallb (fun c => negb (c =? 41)%N) params = true.

Definition noMarker (response : jsstring) : Prop :=
  forall type keyword,
    In (type, keyword) typeToKeyword -> startsWith response keyword = false.

Definition hasTerminal (cs : list Content) : bool :=
  existsb (fun c => isTerminalType (content_type c)) cs.

(** The failures that can occur inside the [try] block of an iteration that
    starts in [tr] with the message list [messages]: the model call fails,
    the classification of the reply fails, or the execution of the tool
    fails.  [IterationFailure env s messages tr e tr'] gives the exception
    [e] that reaches the [catch] and the trace [tr'] at that point. *)
Inductive IterationFailure (env : Environment) (agentSessionId : jsstring)
          (messages : list BaseMessage) (tr : Trace) : Exn -> Trace -> Prop :=
| ModelFailure e :
    model_invoke env tr (SystemMessage (prompt env) :: messages) = inl e ->
    IterationFailure env agentSessionId messages tr
      (JsError (js "Anthropic API error: " ++ errorMessage env e))
      (tr ++ [EvInvoke (SystemMessage (prompt env) :: messages) (inl e)])
| ClassificationFailure response e :
    model_invoke env tr (SystemMessage (prompt env) :: messages) = inr response ->
    mapResponseToLinearActivityContent response = Throw e ->
    IterationFailure env agentSessionId messages tr e
      (tr ++ [EvInvoke (SystemMessage (prompt env) :: messages) (inr response)])
| ToolFailure response tool parameter result e tr' :
    model_invoke env tr (SystemMessage (prompt env) :: messages) = inr response ->
    mapResponseToLinearActivityContent response
    = Ok (ActionContent tool parameter result) ->
    executeAction env tool parameter
      (tr ++ [EvInvoke (SystemMessage (prompt env) :: messages) (inr response);
              EvCreateAgentActivity agentSessionId
                (ActionContent tool parameter result)])
    = (Throw e, tr') ->
    IterationFailure env agentSessionId messages tr e tr'.

(** Every call of a tool throws, as the calls of the exported tool objects
    do. *)
Definition toolsThrow (env : Environment) : Prop :=
  forall tr call, exists e, tool_invoke env tr call = inl e.

(** Neither the answer of a tool nor the write of an Action with its
    result. *)
Definition noToolResult (e : Event) : Prop :=
  match e with
  | EvTool _ (inr _) => False
  | EvCreateAgentActivity _ (ActionContent _ _ (Some _)) => False
  | _ => True
  end.

(** [QuietRounds env s n messages tr messages' tr']: from the message list
    [messages] and the trace [tr], [n] rounds in a row get a reply of the
    model that is classified as a Thought, or as an Action whose tool
    execution returns; they lead to [messages'] and [tr'].  No such round
    produces a terminal variant, and none fails. *)
Inductive QuietRounds (env : Environment) (agentSessionId : jsstring)
  : nat -> list BaseMessage -> Trace -> list BaseMessage -> Trace -> Prop :=
| Quiet_none messages tr :
    QuietRounds env agentSessionId 0 messages tr messages tr
| Quiet_thought n messages tr response body messages' tr' :
    model_invoke env tr (SystemMessage (prompt env) :: messages) = inr response ->
    mapResponseToLinearActivityContent response = Ok (BodyContent Thought body) ->
    QuietRounds env agentSessionId n
      (messages ++ [AIMessage response])
      (tr ++ [EvInvoke (SystemMessage (prompt env) :: messages) (inr response);
              EvCreateAgentActivity agentSessionId (BodyContent Thought body);
              EvSetTimeout 1000])
      messages' tr' ->
    QuietRounds env agentSessionId (S n) messages tr messages' tr'
| Quiet_action n messages tr response tool parameter result toolResult tr1
               messages' tr' :
    model_invoke env tr (SystemMessage (prompt env) :: messages) = inr response ->
    mapResponseToLinearActivityContent response
    = Ok (ActionContent tool parameter result) ->
    executeAction env tool parameter
      (tr ++ [EvInvoke (SystemMessage (prompt env) :: messages) (inr response);
              EvCreateAgentActivity agentSessionId
                (ActionContent tool parameter result)])
    = (Ok toolResult, tr1) ->
    QuietRounds env agentSessionId n
      (messages ++ [AIMessage response;
                    HumanMessage (js "Tool result: " ++ toolResult)])
      (tr1 ++ [EvCreateAgentActivity agentSessionId
                 (ActionContent tool (orNull parameter) (Some toolResult));
               EvSetTimeout 1000])
      messages' tr' ->
    QuietRounds env agentSessionId (S n) messages tr messages' tr'.

(** A round that ends the loop: the reply is classified as a terminal
    variant, or the round fails. *)
Inductive EndingRound (env : Environment) (agentSessionId : jsstring)
          (messages : list BaseMessage) (tr : Trace) : Prop :=
| Ends_terminal response type body :
    model_invoke env tr (SystemMessage (prompt env) :: messages) = inr response ->
    mapResponseToLinearActivityContent response = Ok (BodyContent type body) ->
    isTerminalType type = true ->
    EndingRound env agentSessionId messages tr
| Ends_failure e tr' :
    IterationFailure env agentSessionId messages tr e tr' ->
    EndingRound env agentSessionId messages tr.

(* ================================================================== *)
(** ** Further observations and worlds *)
(* ================================================================== *)

Definition isToolEvent (e : Event) : bool :=
  match e with EvTool _ _ => true | _ => false end.

(** The number of tool calls recorded in a trace. *)
Definition toolCalls (tr : Trace) : nat :=
  List.length (filter isToolEvent tr).

(** The message lists the model was called with, in the order of the calls. *)
Fixpoint modelInputs (tr : Trace) : list (list BaseMessage) :=
  match tr with
  | [] => []
  | EvInvoke allMessages _ :: tr' => allMessages :: modelInputs tr'
  | _ :: tr' => modelInputs tr'
  end.

(** A read of the activities of the session [agentSessionId]. *)
Definition isReadOf (agentSessionId : jsstring) (e : Event) : Prop :=
  match e with
  | EvActivities s _ _ => s = agentSessionId
  | _ => False
  end.

(** A store that announces a further page after every page. *)
Definition endlessStore (after : option jsstring) : Connection :=
  {| nodes := [ activity Prompt "again" 1 ];
     hasNextPage := true;
     endCursor := Some (js "next") |}.

Definition endlessWorld : Environment :=
  scripted [ inr (js "RESPONSE: never asked") ] exportedTools endlessStore.

(** A store whose first page announces a further page without a cursor. *)
Definition cursorlessStore (after : option jsstring) : Connection :=
  match after with
  | None => {| nodes := [ activity Response "It is sunny in Paris." 4 ];
               hasNextPage := true;
               endCursor := None |}
  | Some _ => olderPage
  end.

Definition cursorlessWorld : Environment :=
  scripted [ inr (js "RESPONSE: fine") ] exportedTools cursorlessStore.

(** A model whose service is down. *)
Definition downWorld : Environment :=
  scripted [ inl (JsError (js "529 overloaded")) ] exportedTools emptyStore.

(* ================================================================== *)
(** ** The tools: [getCoordinatesImpl], [getWeatherImpl], [getTimeImpl]

    The three lookups of [tools.ts].  The HTTP services are external: a
    lookup is given what [fetch] does for its request, a response or a
    rejection (a network failure, a malformed URL, the abort after 60 s of
    the time lookup).  Bodies are typed as the casts of the source type
    them; a number that the source only renders or uses as a key is kept as
    the text [Number::toString] gives for it. *)
(* ================================================================== *)

Module Tools.

(** What [await fetch(...)] resolves to; [json] is [await response.json()]. *)
Record HttpResponse (Body : Type) := {
  ok : bool;
  status : N;
  statusText : jsstring;
  json : Exn + Body
}.
Arguments ok {Body} _.
Arguments status {Body} _.
Arguments statusText {Body} _.
Arguments json {Body} _.

(** A status code in a template literal. *)
Definition decimal (n : N) : jsstring :=
  js (NilEmpty.string_of_uint (N.to_uint n)).

Definition awaited {A} (r : Exn + A) : Outcome A :=
  match r with
  | inl e => Throw e
  | inr a => Ok a
  end.

Definition andThen {A B} (o : Outcome A) (k : A -> Outcome B) : Outcome B :=
  match o with
  | Ok a => k a
  | Throw e => Throw e
  | Diverge => Diverge
  end.

(** [try { body } catch (error) { handler }] *)
Definition attempt {A} (body : Outcome A) (handler : Exn -> Outcome A)
  : Outcome A :=
  match body with
  | Throw e => handler e
  | r => r
  end.

(** A hit of the geocoding service. *)
Record Place := {
  lat : jsstring;
  lon : jsstring;
  display_name : jsstring
}.

(** [{ lat, lon, displayName } | { error }] *)
Inductive Coordinates :=
| Located (lat lon : number) (displayName : jsstring)
| Failed (error : jsstring).

(** A weather code, of type [number] in the source.  [Integer n] is the
    number [n], an integer from 0; [OtherNumber] is any other number: a
    fraction, a negative number, [NaN] or an infinity. *)
Inductive Code :=
| Integer (n : N)
| OtherNumber.

(** [data.current] of the weather service, at the type the source gives it.
    [temperature_2m] is the text the template literal makes of the number. *)
Record Current := {
  temperature_2m : jsstring;
  weathercode : Code
}.

(** The body of the time service. *)
Record TimeData := {
  date : jsstring;
  time : jsstring;
  timeZone : jsstring;
  dayOfWeek : jsstring;
  dstActive : bool
}.

(** The object literal [weatherCodes], of type [{ [key: number]: string }]. *)
Definition weatherCodes : list (N * jsstring) :=
  [ (0%N, js "clear sky");
    (1%N, js "mainly clear");
    (2%N, js "partly cloudy");
    (3%N, js "overcast");
    (45%N, js "fog");
    (48%N, js "depositing rime fog");
    (51%N, js "light drizzle");
    (53%N, js "moderate drizzle");
    (55%N, js "dense drizzle");
    (56%N, js "light freezing drizzle");
    (57%N, js "dense freezing drizzle");
    (61%N, js "slight rain");
    (63%N, js "moderate rain");
    (65%N, js "heavy rain");
    (66%N, js "light freezing rain");
    (67%N, js "heavy freezing rain");
    (71%N, js "slight snow");
    (73%N, js "moderate snow");
    (75%N, js "heavy snow");
    (77%N, js "snow grains");
    (80%N, js "slight rain showers");
    (81%N, js "moderate rain showers");
    (82%N, js "violent rain showers");
    (85%N, js "slight snow showers");
    (86%N, js "heavy snow showers");
    (95%N, js "thunderstorm");
    (96%N, js "thunderstorm with slight hail");
    (99%N, js "thunderstorm with heavy hail") ].

(** [weatherCodes[code]] for a number [code].  The property key of a number
    is its decimal text, so a number finds an entry exactly when it is the
    integer the entry is written under.  The properties every object
    inherits ([toString], [constructor] and the like) are the text of no
    number and are not found. *)
Definition lookupCode (code : Code) : option jsstring :=
  match code with
  | Integer n =>
      match find (fun e => (fst e =? n)%N) weatherCodes with
      | Some (_, description) => Some description
      | None => None
      end
  | OtherNumber => None
  end.

(** [weatherCodes[code] || "unknown weather"] *)
Definition getWeatherDescription (code : Code) : jsstring :=
  match orNull (lookupCode code) with
  | Some description => description
  | None => js "unknown weather"
  end.

Section Lookups.

Variable env : Environment.

Definition getCoordinatesImpl
           (fetch : jsstring -> Exn + HttpResponse (option (list Place)))
           (city_name : jsstring) : Outcome Coordinates :=
  attempt
    (andThen (awaited (fetch city_name)) (fun response =>
     if negb (ok response) then
       Ok (Failed (js "OpenStreetMap API error: "
                      ++ decimal (status response) ++ js " "
                      ++ statusText response))
     else
       andThen (awaited (json response)) (fun data =>
       match data with
       | Some (result :: _) =>
           Ok (Located (parseFloat (lat result)) (parseFloat (lon result))
                       (display_name result))
       | _ => Ok (Failed (js "Location not found"))
       end)))
    (fun error =>
       Ok (Failed (js "Failed to get coordinates: " ++ errorMessage env error))).

Definition getWeatherImpl
           (fetch : number -> number
                    -> Exn + HttpResponse (option (option Current)))
           (latitude longitude : number) : Outcome jsstring :=
  attempt
    (andThen (awaited (fetch latitude longitude)) (fun response =>
     andThen (awaited (json response)) (fun data =>
     match data with
     | Some (Some current) =>
         let weatherDescription := getWeatherDescription (weathercode current) in
         Ok (temperature_2m current ++ 176%N :: js "C, " ++ weatherDescription)
     | _ => Ok (js "Weather data not available")
     end)))
    (fun error => Ok (js "Failed to get weather: " ++ errorMessage env error)).

Definition getTimeImpl
           (fetch : number -> number -> Exn + HttpResponse (option TimeData))
           (latitude longitude : number) : Outcome jsstring :=
  attempt
    (andThen (awaited (fetch latitude longitude)) (fun response =>
     if negb (ok response) then
       Ok (js "Time API error: " ++ decimal (status response) ++ js " "
              ++ statusText response)
     else
       andThen (awaited (json response)) (fun data =>
       match data with
       | Some d =>
           let dstStatus := if dstActive d then js " (DST active)" else [] in
           Ok (dayOfWeek d ++ js ", " ++ date d ++ js " at " ++ time d
                 ++ js " " ++ timeZone d ++ dstStatus)
       | None => Ok (js "Time data not available")
       end)))
    (fun error => Ok (js "Failed to get time: " ++ errorMessage env error)).

End Lookups.

(** A weather service that answers 500 with a body that still parses. *)
Definition failingWeatherService (latitude longitude : number)
  : Exn + HttpResponse (option (option Current)) :=
  inr {| ok := false; status := 500; statusText := js "Internal Server Error";
         json := inr (Some (Some {| temperature_2m := js "18.2";
                                    weathercode := Integer 2 |})) |}.

(** A geocoding service with two hits, the first without usable numbers. *)
Definition geocodingService (city_name : jsstring)
  : Exn + HttpResponse (option (list Place)) :=
  inr {| ok := true; status := 200; statusText := js "OK";
         json := inr (Some [ {| lat := js "n/a"; lon := js "2.35";
                                display_name := js "Paris, France" |};
                             {| lat := js "33.66"; lon := js "-95.55";
                                display_name := js "Paris, Texas" |} ]) |}.

End Tools.

(* ================================================================== *)
(** ** Strings: facts about the built-ins *)
(* ================================================================== *)

Lemma startsWith_app (k rest : jsstring) : startsWith (k ++ rest) k = true.
Proof.
  induction k as [|x k IH]; simpl; [reflexivity|].
  now rewrite N.eqb_refl, IH.
Qed.

Lemma startsWith_split (s k : jsstring) :
  startsWith s k = true -> s = k ++ skipn (List.length k) s.
Proof.
  revert s; induction k as [|x k IH]; intros s H; simpl in *; [reflexivity|].
  destruct s as [|c s]; [discriminate|].
  apply andb_true_iff in H as [Hc Hs].
  apply N.eqb_eq in Hc; subst c.
  simpl. f_equal. now apply IH.
Qed.

Lemma replace_prefix (s k rep : jsstring) :
  startsWith s k = true -> replace s k rep = rep ++ skipn (List.length k) s.
Proof.
  intros H. destruct s; simpl; now rewrite H.
Qed.

Lemma replace_absent (s k rep : jsstring) :
  includes s k = false -> replace s k rep = s.
Proof.
  induction s as [|c s IH]; simpl; intros H.
  - apply orb_false_iff in H as [H _]. now rewrite H.
  - apply orb_false_iff in H as [H1 H2]. rewrite H1. now rewrite IH.
Qed.

Lemma span_app (p : codeunit -> bool) (s : jsstring) :
  fst (span p s) ++ snd (span p s) = s.
Proof.
  induction s as [|c s IH]; simpl; [reflexivity|].
  destruct (p c); [|reflexivity].
  destruct (span p s) as [a b]; simpl in *. now rewrite IH.
Qed.

Lemma span_forallb (p : codeunit -> bool) (s : jsstring) :
  forallb p (fst (span p s)) = true.
Proof.
  induction s as [|c s IH]; simpl; [reflexivity|].
  destruct (p c) eqn:E; [|reflexivity].
  destruct (span p s) as [a b]; simpl in *. now rewrite E, IH.
Qed.

Lemma span_stop (p : codeunit -> bool) (s : jsstring) c rest :
  snd (span p s) = c :: rest -> p c = false.
Proof.
  induction s as [|x s IH]; simpl; [discriminate|].
  destruct (p x) eqn:E.
  - destruct (span p s) as [a b]; simpl in *. exact IH.
  - intros H; injection H as -> _. exact E.
Qed.

(** [span] returns the only split into a prefix inside the class and a rest
    that starts outside of it. *)
Lemma span_unique (p : codeunit -> bool) (a : jsstring) c rest :
  forallb p a = true -> p c = false ->
  span p (a ++ c :: rest) = (a, c :: rest).
Proof.
  induction a as [|x a IH]; simpl; intros Ha Hc.
  - now rewrite Hc.
  - apply andb_true_iff in Ha as [Hx Ha].
    rewrite Hx, (IH Ha Hc). reflexivity.
Qed.

Lemma js_ACTION : js "ACTION:" = [65; 67; 84; 73; 79; 78; 58]%N.
Proof. reflexivity. Qed.

Ltac bool_to_prop H :=
  rewrite ?orb_true_iff, ?andb_true_iff, ?negb_true_iff,
    ?N.leb_le, ?N.eqb_eq, ?N.eqb_neq in H.

Lemma wordChar_not_whiteSpace (c : codeunit) :
  isWordChar c = true -> isWhiteSpace c = false.
Proof.
  intros H. destruct (isWhiteSpace c) eqn:E; [exfalso|reflexivity].
  unfold isWordChar, isWhiteSpace, isDigit, between in *.
  bool_to_prop H. bool_to_prop E. lia.
Qed.

Lemma forallb_nonempty_head (p : codeunit -> bool) (a : jsstring) :
  a <> [] -> forallb p a = true -> exists x a', a = x :: a' /\ p x = true.
Proof.
  destruct a as [|x a']; [congruence|]. simpl. intros _ H.
  apply andb_true_iff in H as [H _]. eauto.
Qed.

(* ================================================================== *)
(** ** The action-call pattern *)
(* ================================================================== *)


Lemma matchActionHere_complete (s name params : jsstring) :
  ActionSyntax s name params -> matchActionHere s = Some (name, params).
Proof.
  intros (ws & rest & -> & Hws & Hn & Hname & Hp & Hparams).
  unfold matchActionHere. rewrite startsWith_app.
  rewrite js_ACTION. cbn [skipn app].
  destruct (forallb_nonempty_head _ _ Hn Hname) as (x & n' & -> & Hx).
  assert (Hsp1 : span isWhiteSpace (ws ++ (x :: n') ++ 40%N :: params ++ 41%N :: rest)
                 = (ws, (x :: n') ++ 40%N :: params ++ 41%N :: rest)).
  { cbn [app]. apply span_unique; [exact Hws|].
    now apply wordChar_not_whiteSpace. }
  rewrite Hsp1.
  rewrite (span_unique isWordChar (x :: n') 40%N (params ++ 41%N :: rest) Hname eq_refl).
  rewrite (span_unique _ params 41%N rest Hparams eq_refl).
  destruct params; [congruence|reflexivity].
Qed.

Lemma matchActionHere_sound (s name params : jsstring) :
  matchActionHere s = Some (name, params) -> ActionSyntax s name params.
Proof.
  unfold matchActionHere, ActionSyntax.
  destruct (startsWith s (js "ACTION:")) eqn:Hs; [|discriminate].
  apply startsWith_split in Hs.
  change (List.length (js "ACTION:")) with 7 in Hs.
  pose proof (span_app isWhiteSpace (skipn 7 s)) as A1.
  pose proof (span_forallb isWhiteSpace (skipn 7 s)) as F1.
  destruct (span isWhiteSpace (skipn 7 s)) as [ws s1]; simpl in A1, F1.
  pose proof (span_app isWordChar s1) as A2.
  pose proof (span_forallb isWordChar s1) as F2.
  destruct (span isWordChar s1) as [nm s2]; simpl in A2, F2.
  destruct nm as [|n0 nm]; [discriminate|].
  destruct s2 as [|c s3]; [discriminate|].
  destruct (N.eq_dec c 40) as [->|Hc].
  2:{ destruct c as [|p]; [discriminate|].
      do 6 (destruct p; try discriminate). congruence. }
  pose proof (span_app (fun c => negb (c =? 41)%N) s3) as A3.
  pose proof (span_forallb (fun c => negb (c =? 41)%N) s3) as F3.
  destruct (span (fun c => negb (c =? 41)%N) s3) as [ps s4]; simpl in A3, F3.
  destruct ps as [|p0 ps]; [discriminate|].
  destruct s4 as [|d s5]; [discriminate|].
  destruct (N.eq_dec d 41) as [->|Hd].
  2:{ destruct d as [|p]; [discriminate|].
      do 6 (destruct p; try discriminate). congruence. }
  intros H; injection H as <- <-.
  exists ws, s5. repeat split; try assumption; try discriminate.
  rewrite A3, A2, A1. exact Hs.
Qed.

(** The matcher computes exactly the captures of the pattern; in particular a
    match is unique at a position, whatever the order in which a regular
    expression engine tries the repetitions. *)
Lemma matchActionHere_iff (s name params : jsstring) :
  matchActionHere s = Some (name, params) <-> ActionSyntax s name params.
Proof.
  split; [apply matchActionHere_sound | apply matchActionHere_complete].
Qed.

(** The pattern is not anchored: [matchAction] finds its leftmost match. *)
Lemma matchAction_leftmost (s name params : jsstring) :
  matchAction s = Some (name, params) <->
  exists before here,
    s = before ++ here /\ ActionSyntax here name params
    /\ forall k, k < List.length before -> matchActionHere (skipn k s) = None.
Proof.
  split.
  - induction s as [|c s IH].
    + simpl. discriminate.
    + cbn [matchAction].
      destruct (matchActionHere (c :: s)) as [[n p]|] eqn:E.
      * intros H; injection H as -> ->.
        exists [], (c :: s). repeat split.
        -- now apply matchActionHere_sound.
        -- simpl; intros k Hk; lia.
      * intros H. destruct (IH H) as (b & h & -> & Hh & Hb).
        exists (c :: b), h. repeat split; [exact Hh|].
        intros [|k] Hk; [exact E|]. simpl in Hk. apply Hb. lia.
  - intros (b & h & -> & Hh & Hb).
    induction b as [|c b IH].
    + simpl app. destruct h as [|c h].
      * apply matchActionHere_complete in Hh. discriminate.
      * cbn [matchAction]. now rewrite (matchActionHere_complete _ _ _ Hh).
    + simpl app. cbn [matchAction].
      pose proof (Hb 0 ltac:(simpl; lia)) as H0. cbn [skipn app] in H0.
      rewrite H0.
      apply IH. intros k Hk. apply (Hb (S k)). simpl. lia.
Qed.

Lemma matchAction_params_nonempty (s name params : jsstring) :
  matchAction s = Some (name, params) -> params <> [].
Proof.
  intros H. apply matchAction_leftmost in H as (_ & h & _ & Hh & _).
  destruct Hh as (_ & _ & _ & _ & _ & _ & Hp & _). exact Hp.
Qed.

(* ================================================================== *)
(** ** The classifier *)
(* ================================================================== *)

Lemma startsWith_exists (s k : jsstring) :
  startsWith s k = true -> exists rest, s = k ++ rest.
Proof. intros H. eexists. now apply startsWith_split. Qed.

Lemma skipn_prefix (k rest : jsstring) : skipn (List.length k) (k ++ rest) = rest.
Proof. induction k; simpl; auto. Qed.

(** The guard accepts the three names of the registry and nothing else. *)
Lemma isToolName_spec (name : jsstring) :
  isToolName name = true <-> In name (map ToolName_text toolNames).
Proof.
  unfold isToolName, toToolName, toolNames. cbn [find map In].
  destruct (jsstring_eq_dec name (ToolName_text getCoordinates)) as [->|H1];
    [intuition|].
  destruct (jsstring_eq_dec name (ToolName_text getWeather)) as [->|H2];
    [intuition|].
  destruct (jsstring_eq_dec name (ToolName_text getTime)) as [->|H3];
    [intuition|].
  split; [discriminate|]. intros [E|[E|[E|[]]]]; congruence.
Qed.

(** A reply that starts with the marker of a text-carrying variant. *)
Lemma classify_body (response : jsstring) type keyword :
  In (type, keyword) typeToKeyword -> type <> Action ->
  startsWith response keyword = true ->
  mapResponseToLinearActivityContent response
  = Ok (BodyContent type (trim (skipn (List.length keyword) response))).
Proof.
  intros Hin Hty Hs.
  destruct (startsWith_exists _ _ Hs) as [rest ->].
  rewrite skipn_prefix.
  unfold typeToKeyword in Hin. simpl in Hin.
  destruct Hin as [E|[E|[E|[E|[E|[]]]]]]; injection E as <- <-;
    try congruence; reflexivity.
Qed.

(** A reply that starts with [ACTION:]. *)
Lemma classify_action (response : jsstring) :
  startsWith response (js "ACTION:") = true ->
  mapResponseToLinearActivityContent response
  = match matchAction response with
    | Some (toolNameRaw, params) =>
        match toToolName toolNameRaw with
        | None => Throw (JsError (js "Invalid tool name: " ++ toolNameRaw))
        | Some toolName => Ok (ActionContent toolName (orNull (Some params)) None)
        end
    | None => Throw (UnreachableCaseError Action)
    end.
Proof.
  intros Hs.
  destruct (startsWith_exists _ _ Hs) as [rest E].
  unfold mapResponseToLinearActivityContent.
  replace (find (fun e => startsWith response (snd e)) typeToKeyword)
    with (Some (Action, js "ACTION:")); [reflexivity|].
  rewrite E. reflexivity.
Qed.


(** A reply that starts with no marker. *)
Lemma classify_unmarked (response : jsstring) :
  noMarker response ->
  mapResponseToLinearActivityContent response
  = Ok (BodyContent Thought (trim (replace response (js "THINKING:") []))).
Proof.
  intros H. unfold mapResponseToLinearActivityContent.
  replace (find (fun e => startsWith response (snd e)) typeToKeyword)
    with (@None (AgentActivityType * jsstring)); [reflexivity|].
  unfold typeToKeyword. cbn [find snd].
  rewrite (H Thought (js "THINKING:")), (H Action (js "ACTION:")),
    (H Response (js "RESPONSE:")), (H Elicitation (js "ELICITATION:")),
    (H Error (js "ERROR:")); unfold typeToKeyword; simpl; auto 10.
Qed.

(** Whatever is classified as an action carries the captures of the
    action-call pattern, and a registered name. *)
Lemma classify_Ok_action (response : jsstring) tool parameter result :
  mapResponseToLinearActivityContent response
  = Ok (ActionContent tool parameter result) ->
  exists name params,
    matchAction response = Some (name, params)
    /\ toToolName name = Some tool
    /\ parameter = Some params /\ params <> [] /\ result = None.
Proof.
  unfold mapResponseToLinearActivityContent.
  destruct (find _ typeToKeyword) as [[t k]|]; [|discriminate].
  destruct t; try discriminate.
  destruct (matchAction response) as [[name params]|] eqn:M; [|discriminate].
  destruct (toToolName name) as [tn|] eqn:T; [|discriminate].
  pose proof (matchAction_params_nonempty _ _ _ M) as Hp.
  destruct params as [|p ps]; [congruence|].
  cbn [orNull falsy]. intros H; injection H as <- <- <-.
  exists name, (p :: ps). repeat split; auto.
Qed.

Ltac solve_noMarker :=
  let t := fresh in let k := fresh in let H := fresh in
  intros t k H; unfold typeToKeyword in H; simpl in H;
  repeat (destruct H as [H|H]; [injection H as <- <-; reflexivity|]);
  destruct H.

Lemma app_singleton_neq {A} (l : list A) (x : A) : l ++ [x] <> l.
Proof.
  intros H. apply (f_equal (@List.length A)) in H.
  rewrite length_app in H. simpl in H. lia.
Qed.

(** ** Properties of the classifier *)

(** C1, as the code has it.  A reply that starts with [THINKING:],
    [RESPONSE:], [ELICITATION:] or [ERROR:] is classified as the variant of
    that marker, its body being the text after the marker, trimmed.  A reply
    that starts with [ACTION:] is classified as an Action exactly when the
    action-call pattern matches in it and the name the pattern captures is
    registered; the Action then carries that tool and the parameter text the
    pattern captures, and no result.  When the pattern matches and the name
    is not registered, and when the pattern does not match, classification
    fails.  A reply that starts with no marker and does not contain
    [THINKING:] is classified as a Thought whose body is the whole text,
    trimmed. *)
Theorem classify_marked_and_unmarked (response : jsstring) :
  (forall type keyword,
      In (type, keyword) typeToKeyword -> type <> Action ->
      startsWith response keyword = true ->
      mapResponseToLinearActivityContent response
      = Ok (BodyContent type (trim (skipn (List.length keyword) response))))
  /\ (startsWith response (js "ACTION:") = true ->
      mapResponseToLinearActivityContent response
      = match matchAction response with
        | Some (name, params) =>
            match toToolName name with
            | Some tool => Ok (ActionContent tool (Some params) None)
            | None => Throw (JsError (js "Invalid tool name: " ++ name))
            end
        | None => Throw (UnreachableCaseError Action)
        end)
  /\ (noMarker response -> includes response (js "THINKING:") = false ->
      mapResponseToLinearActivityContent response
      = Ok (BodyContent Thought (trim response))).
Proof.
  split; [|split].
  - intros type keyword. apply classify_body.
  - intros Hs. rewrite (classify_action _ Hs).
    destruct (matchAction response) as [[name params]|] eqn:M; [|reflexivity].
    destruct (toToolName name) as [tool|] eqn:T; [|reflexivity].
    pose proof (matchAction_params_nonempty _ _ _ M).
    destruct params; [congruence|reflexivity].
  - intros Hn Hi. rewrite (classify_unmarked _ Hn).
    now rewrite (replace_absent _ _ _ Hi).
Qed.

Lemma classify_marked_and_unmarked_witness :
  (In (Response, js "RESPONSE:") typeToKeyword /\ Response <> Action
   /\ startsWith (js "RESPONSE: It is sunny. ") (js "RESPONSE:") = true
   /\ mapResponseToLinearActivityContent (js "RESPONSE: It is sunny. ")
      = Ok (BodyContent Response (js "It is sunny.")))
  /\ (startsWith (js "ACTION: getTime(48.85, 2.35)") (js "ACTION:") = true
      /\ mapResponseToLinearActivityContent (js "ACTION: getTime(48.85, 2.35)")
         = Ok (ActionContent getTime (Some (js "48.85, 2.35")) None))
  /\ (startsWith (js "ACTION: getMoon(48.85)") (js "ACTION:") = true
      /\ mapResponseToLinearActivityContent (js "ACTION: getMoon(48.85)")
         = Throw (JsError (js "Invalid tool name: getMoon")))
  /\ (noMarker (js " Let me look that up ")
      /\ includes (js " Let me look that up ") (js "THINKING:") = false
      /\ mapResponseToLinearActivityContent (js " Let me look that up ")
         = Ok (BodyContent Thought (js "Let me look that up"))).
Proof.
  split; [|split; [|split]].
  - assert (Hin : In (Response, js "RESPONSE:") typeToKeyword)
      by (unfold typeToKeyword; simpl; auto).
    assert (Hne : Response <> Action) by discriminate.
    split; [exact Hin|]. split; [exact Hne|]. split; [reflexivity|].
    exact (proj1 (classify_marked_and_unmarked (js "RESPONSE: It is sunny. "))
                 Response (js "RESPONSE:") Hin Hne eq_refl).
  - split; [reflexivity|].
    exact (proj1 (proj2 (classify_marked_and_unmarked
                           (js "ACTION: getTime(48.85, 2.35)"))) eq_refl).
  - split; [reflexivity|].
    exact (proj1 (proj2 (classify_marked_and_unmarked
                           (js "ACTION: getMoon(48.85)"))) eq_refl).
  - assert (Hn : noMarker (js " Let me look that up ")) by solve_noMarker.
    split; [exact Hn|]. split; [reflexivity|].
    exact (proj2 (proj2 (classify_marked_and_unmarked
                           (js " Let me look that up "))) Hn eq_refl).
Defined.

(** C1 as stated fails: a reply that starts with [ACTION:] can be rejected
    instead of classified, and a reply without a leading marker loses an
    interior [THINKING:]. *)
Lemma classify_marked_and_unmarked_counterexample :
  (startsWith (js "ACTION: look up Paris") (js "ACTION:") = true
   /\ mapResponseToLinearActivityContent (js "ACTION: look up Paris")
      = Throw (UnreachableCaseError Action)
   /\ forall c, mapResponseToLinearActivityContent (js "ACTION: look up Paris")
                <> Ok c)
  /\ (noMarker (js "I am THINKING: hard")
      /\ mapResponseToLinearActivityContent (js "I am THINKING: hard")
         = Ok (BodyContent Thought (js "I am  hard"))
      /\ js "I am  hard" <> trim (js "I am THINKING: hard")).
Proof.
  split; [split; [|split]|split; [|split]].
  - reflexivity.
  - vm_compute. reflexivity.
  - intros c H. vm_compute in H. discriminate.
  - solve_noMarker.
  - vm_compute. reflexivity.
  - intros H. vm_compute in H. discriminate.
Qed.

(** C7.  A reply tagged [ACTION:] whose action call parses but names a tool
    that is not one of the registered ones ([getCoordinates], [getWeather],
    [getTime]) is rejected with an error, "Invalid tool name"; it is neither
    classified nor ignored. *)
Theorem unregistered_tool_rejected (response name params : jsstring) :
  startsWith response (js "ACTION:") = true ->
  matchAction response = Some (name, params) ->
  ~ In name [js "getCoordinates"; js "getWeather"; js "getTime"] ->
  mapResponseToLinearActivityContent response
  = Throw (JsError (js "Invalid tool name: " ++ name)).
Proof.
  intros Hs M T. rewrite (classify_action _ Hs), M.
  destruct (toToolName name) eqn:E; [|reflexivity].
  exfalso. apply T. apply (isToolName_spec name).
  unfold isToolName. now rewrite E.
Qed.

Lemma unregistered_tool_rejected_witness :
  startsWith (js "ACTION: bogusTool(1,2)") (js "ACTION:") = true
  /\ matchAction (js "ACTION: bogusTool(1,2)") = Some (js "bogusTool", js "1,2")
  /\ ~ In (js "bogusTool") [js "getCoordinates"; js "getWeather"; js "getTime"]
  /\ mapResponseToLinearActivityContent (js "ACTION: bogusTool(1,2)")
     = Throw (JsError (js "Invalid tool name: bogusTool")).
Proof.
  assert (Hn : ~ In (js "bogusTool")
                 [js "getCoordinates"; js "getWeather"; js "getTime"]).
  { intros [E|[E|[E|[]]]]; vm_compute in E; discriminate. }
  split; [reflexivity|]. split; [reflexivity|]. split; [exact Hn|].
  exact (unregistered_tool_rejected (js "ACTION: bogusTool(1,2)")
           (js "bogusTool") (js "1,2") eq_refl eq_refl Hn).
Defined.

(** C8, as the code has it.  A reply tagged [ACTION:] is classified as an
    Action exactly when the action-call pattern, whose parameter list is not
    empty, matches and the name it captures is registered; the Action then carries that
    name and the captured, non-empty parameter text.  When the pattern does
    not match, or the name is not registered, classification fails. *)
Theorem action_needs_nonempty_parameter (response : jsstring) :
  startsWith response (js "ACTION:") = true ->
  match matchAction response with
  | Some (name, params) =>
      params <> [] /\
      match toToolName name with
      | Some tool =>
          mapResponseToLinearActivityContent response
          = Ok (ActionContent tool (Some params) None)
      | None =>
          mapResponseToLinearActivityContent response
          = Throw (JsError (js "Invalid tool name: " ++ name))
      end
  | None =>
      mapResponseToLinearActivityContent response
      = Throw (UnreachableCaseError Action)
  end.
Proof.
  intros Hs. rewrite (classify_action _ Hs).
  destruct (matchAction response) as [[name params]|] eqn:M; [|reflexivity].
  pose proof (matchAction_params_nonempty _ _ _ M) as Hp.
  split; [exact Hp|].
  destruct (toToolName name); [|reflexivity].
  destruct params; [congruence|reflexivity].
Qed.

Lemma action_needs_nonempty_parameter_witness :
  startsWith (js "ACTION: getWeather(40.7,-74.0)") (js "ACTION:") = true
  /\ js "40.7,-74.0" <> []
  /\ mapResponseToLinearActivityContent (js "ACTION: getWeather(40.7,-74.0)")
     = Ok (ActionContent getWeather (Some (js "40.7,-74.0")) None).
Proof.
  split; [reflexivity|].
  exact (action_needs_nonempty_parameter
           (js "ACTION: getWeather(40.7,-74.0)") eq_refl).
Defined.

(** C8 as stated fails: a registered tool called with an empty parameter list
    is not classified as an Action without parameter, classification fails. *)
Lemma action_needs_nonempty_parameter_counterexample :
  startsWith (js "ACTION: getTime()") (js "ACTION:") = true
  /\ isToolName (js "getTime") = true
  /\ mapResponseToLinearActivityContent (js "ACTION: getTime()")
     = Throw (UnreachableCaseError Action)
  /\ forall c, mapResponseToLinearActivityContent (js "ACTION: getTime()")
               <> Ok c.
Proof.
  repeat split. intros c H. vm_compute in H. discriminate.
Qed.

(** C10.  An Action that the classifier returns has a parameter that is
    neither null nor empty and no result yet; so [executeAction], called on
    it, does not take its missing-parameter branch. *)
Theorem classified_action_has_parameter
        (response : jsstring) tool parameter result :
  mapResponseToLinearActivityContent response
  = Ok (ActionContent tool parameter result) ->
  (exists p, parameter = Some p /\ p <> [])
  /\ result = None
  /\ falsy parameter = false
  /\ forall env tr,
      executeAction env tool parameter tr
      <> (Throw (JsError (js "Parameter is required for action execution")), tr).
Proof.
  intros H.
  destruct (classify_Ok_action _ _ _ _ H) as (name & params & _ & _ & -> & Hp & ->).
  destruct params as [|p ps]; [congruence|].
  repeat split; eauto.
  intros env tr. unfold executeAction. cbn [falsy].
  destruct tool.
  - unfold bind, invokeTool.
    destruct (tool_invoke env tr _); simpl; intros E;
      apply (f_equal snd) in E; simpl in E; now apply app_singleton_neq in E.
  - destruct (validCoordinates _).
    + unfold bind, invokeTool.
      destruct (tool_invoke env tr _); simpl; intros E;
        apply (f_equal snd) in E; simpl in E; now apply app_singleton_neq in E.
    + intros E. vm_compute in E. discriminate.
  - destruct (validCoordinates _).
    + unfold bind, invokeTool.
      destruct (tool_invoke env tr _); simpl; intros E;
        apply (f_equal snd) in E; simpl in E; now apply app_singleton_neq in E.
    + intros E. vm_compute in E. discriminate.
Qed.

Lemma classified_action_has_parameter_witness :
  mapResponseToLinearActivityContent (js "ACTION: getWeather(40.7,-74.0)")
  = Ok (ActionContent getWeather (Some (js "40.7,-74.0")) None)
  /\ falsy (Some (js "40.7,-74.0")) = false.
Proof.
  split; [reflexivity|].
  exact (proj1 (proj2 (proj2
           (classified_action_has_parameter
              (js "ACTION: getWeather(40.7,-74.0)") getWeather
              (Some (js "40.7,-74.0")) None eq_refl)))).
Defined.

(* ================================================================== *)
(** ** One iteration of the turn loop *)
(* ================================================================== *)


Lemma published_app (a b : Trace) : published (a ++ b) = published a ++ published b.
Proof.
  induction a as [|e a IH]; simpl; [reflexivity|].
  destruct e; simpl; now rewrite ?IH.
Qed.

Lemma modelCalls_app (a b : Trace) : modelCalls (a ++ b) = modelCalls a + modelCalls b.
Proof. unfold modelCalls. now rewrite filter_app, length_app. Qed.

Lemma hasTerminal_app (a b : list Content) :
  hasTerminal (a ++ b) = hasTerminal a || hasTerminal b.
Proof. apply existsb_app. Qed.

Lemma classify_total (response : jsstring) :
  mapResponseToLinearActivityContent response <> Diverge.
Proof.
  unfold mapResponseToLinearActivityContent.
  destruct (find _ typeToKeyword) as [[t k]|]; [|discriminate].
  destruct t; try discriminate.
  destruct (matchAction response) as [[n p]|]; [|discriminate].
  destruct (toToolName n); discriminate.
Qed.

Ltac close_iteration :=
  first
    [ solve [eexists [], _, _; rewrite <- ?app_assoc; cbn; repeat split]
    | solve [eexists [_], _, _; rewrite <- ?app_assoc; cbn; repeat split]
    | solve [eexists [_; _], _, _; rewrite <- ?app_assoc; cbn; repeat split]
    | solve [eexists [_; _; _], _, _; rewrite <- ?app_assoc; cbn; repeat split]
    | solve [eexists [_; _; _; _], _, _; rewrite <- ?app_assoc; cbn;
             repeat split] ].

Section Iteration.

Variable env : Environment.
Variable agentSessionId : jsstring.

(** [executeAction] either calls its tool once and returns, or calls it once
    and the tool throws, or throws before it calls anything. *)
Lemma executeAction_cases (tool : ToolName) (parameter : option jsstring) (tr : Trace) :
  (exists call raw toolResult,
      executeAction env tool parameter tr
      = (Ok toolResult, tr ++ [EvTool call (inr raw)])
      /\ tool_invoke env tr call = inr raw /\ tool_of_call call = tool)
  \/ (exists call e,
         executeAction env tool parameter tr
         = (Throw e, tr ++ [EvTool call (inl e)])
         /\ tool_invoke env tr call = inl e /\ tool_of_call call = tool)
  \/ (exists e, executeAction env tool parameter tr = (Throw e, tr)).
Proof.
  unfold executeAction.
  destruct (falsy parameter); [right; right; eexists; reflexivity|].
  destruct tool; try destruct (validCoordinates _);
    try (right; right; eexists; reflexivity);
    unfold bind, invokeTool, ret;
    match goal with
    | |- context [tool_invoke env tr ?c] =>
        destruct (tool_invoke env tr c) as [e|raw] eqn:E; simpl;
        [ right; left; exists c, e; rewrite ?E; auto
        | left; exists c, raw; eexists; rewrite ?E; auto ]
    end.
Qed.

(** What an iteration, with its [catch], does to the trace: it calls the model
    once, first; it neither throws nor diverges; and it sets [taskComplete]
    exactly when it publishes a Response, an Elicitation or an Error. *)
Lemma iteration_spec (messages : list BaseMessage) (tr : Trace) :
  let allMessages := SystemMessage (prompt env) :: messages in
  let reply := model_invoke env tr allMessages in
  exists rest messages' taskComplete,
    try_catch (tryIteration env agentSessionId messages)
              (catchIteration env agentSessionId messages) tr
    = (Ok (messages', taskComplete), tr ++ EvInvoke allMessages reply :: rest)
    /\ modelCalls rest = 0
    /\ taskComplete = hasTerminal (published rest).
Proof.
  intros allMessages reply.
  unfold try_catch, tryIteration, callLangGraphAgent, try_catch, invokeModel,
    bind, lift, throw, catchIteration, createAgentActivity, setTimeout, ret.
  fold allMessages. fold reply.
  destruct reply as [e|response]; cbn.
  { close_iteration. }
  destruct (mapResponseToLinearActivityContent response) as [c|e|] eqn:C.
  3:{ now apply classify_total in C. }
  2:{ close_iteration. }
  destruct c as [t body|tool parameter result].
  - destruct t; cbn; close_iteration.
  - destruct (executeAction_cases tool parameter
                ((tr ++ [EvInvoke allMessages (inr response)])
                   ++ [EvCreateAgentActivity agentSessionId
                         (ActionContent tool parameter result)]))
      as [(call & raw & r & -> & _)|[(call & e & -> & _)|(e & ->)]];
      close_iteration.
Qed.

End Iteration.

(* ================================================================== *)
(** ** The turn loop *)
(* ================================================================== *)

Section TurnLoop.

Variable env : Environment.
Variable agentSessionId : jsstring.

Lemma turnLoop_done (fuel : nat) messages taskComplete iterations tr :
  negb taskComplete && (iterations <? MAX_ITERATIONS) = false ->
  turnLoop env fuel agentSessionId messages taskComplete iterations tr
  = (Ok (messages, taskComplete, iterations), tr).
Proof. intros G. destruct fuel; cbn [turnLoop]; now rewrite G. Qed.

Lemma turnLoop_step (fuel : nat) messages iterations tr :
  iterations < MAX_ITERATIONS ->
  turnLoop env (S fuel) agentSessionId messages false iterations tr
  = match try_catch (tryIteration env agentSessionId messages)
                    (catchIteration env agentSessionId messages) tr with
    | (Ok st, tr') =>
        turnLoop env fuel agentSessionId (fst st) (snd st) (S iterations) tr'
    | (Throw e, tr') => (Throw e, tr')
    | (Diverge, tr') => (Diverge, tr')
    end.
Proof.
  intros H. apply Nat.ltb_lt in H. cbn [turnLoop negb andb]. rewrite H.
  unfold bind. reflexivity.
Qed.

(** The loop as a whole: it never throws; it calls the model once per
    iteration and at most [MAX_ITERATIONS - iterations] times; at its exit
    [taskComplete] tells whether a terminal activity was published; and it
    leaves with [taskComplete] unset only when the budget is used up. *)
Lemma turnLoop_spec (fuel : nat) :
  forall messages taskComplete iterations tr,
  exists o more,
    turnLoop env fuel agentSessionId messages taskComplete iterations tr
    = (o, tr ++ more)
    /\ modelCalls more <= MAX_ITERATIONS - iterations
    /\ match o with
       | Ok (_, taskComplete', iterations') =>
           iterations <= iterations'
           /\ modelCalls more = iterations' - iterations
           /\ taskComplete' = taskComplete || hasTerminal (published more)
           /\ (taskComplete' = false -> MAX_ITERATIONS <= iterations')
           /\ (iterations <= MAX_ITERATIONS -> iterations' <= MAX_ITERATIONS)
       | Throw _ => False
       | Diverge => fuel < MAX_ITERATIONS - iterations
       end.
Proof.
  induction fuel as [|fuel IH]; intros messages taskComplete iterations tr.
  - destruct (negb taskComplete && (iterations <? MAX_ITERATIONS)) eqn:G.
    + cbn [turnLoop]. rewrite G. exists Diverge, []. rewrite app_nil_r.
      apply andb_true_iff in G as [_ G]. apply Nat.ltb_lt in G.
      repeat split; change (modelCalls []) with 0; lia.
    + rewrite (turnLoop_done _ _ _ _ _ G). exists (Ok (messages, taskComplete, iterations)), [].
      rewrite app_nil_r. change (modelCalls []) with 0.
      change (hasTerminal (published [])) with false.
      repeat split; try lia.
      * now rewrite orb_false_r.
      * intros ->. cbn [negb andb] in G. apply Nat.ltb_ge in G. exact G.
  - destruct (negb taskComplete && (iterations <? MAX_ITERATIONS)) eqn:G.
    + apply andb_true_iff in G as [Gt G]. apply Nat.ltb_lt in G.
      apply negb_true_iff in Gt. subst taskComplete.
      rewrite (turnLoop_step _ _ _ _ G).
      destruct (iteration_spec env agentSessionId messages tr)
        as (rest & messages' & tc1 & -> & Hcalls & Htc).
      cbn [fst snd].
      destruct (IH messages' tc1 (S iterations)
                   (tr ++ EvInvoke (SystemMessage (prompt env) :: messages)
                                   (model_invoke env tr
                                      (SystemMessage (prompt env) :: messages))
                          :: rest))
        as (o & more & -> & Hle & Ho).
      exists o, ((EvInvoke (SystemMessage (prompt env) :: messages)
                           (model_invoke env tr
                              (SystemMessage (prompt env) :: messages))
                  :: rest) ++ more).
      rewrite <- app_assoc. split; [reflexivity|].
      assert (Hm : modelCalls
                     ((EvInvoke (SystemMessage (prompt env) :: messages)
                         (model_invoke env tr
                            (SystemMessage (prompt env) :: messages))
                       :: rest) ++ more) = 1 + modelCalls more).
      { rewrite modelCalls_app. change (modelCalls (?e :: rest)) with (S (modelCalls rest)).
        rewrite Hcalls. reflexivity. }
      rewrite Hm. split; [lia|].
      destruct o as [[[m' tc'] it']|e|]; [|exact Ho|lia].
      destruct Ho as (H1 & H2 & H3 & H4 & H5).
      repeat split; try lia.
      * rewrite H3, Htc. cbn [app published orb].
        rewrite published_app, hasTerminal_app. reflexivity.
      * exact H4.
    + rewrite (turnLoop_done _ _ _ _ _ G). exists (Ok (messages, taskComplete, iterations)), [].
      rewrite app_nil_r. change (modelCalls []) with 0.
      change (hasTerminal (published [])) with false.
      repeat split; try lia.
      * now rewrite orb_false_r.
      * intros ->. cbn [negb andb] in G. apply Nat.ltb_ge in G. exact G.
Qed.

End TurnLoop.

(* ================================================================== *)
(** ** History reconstruction *)
(* ================================================================== *)

Lemma StronglySorted_filter {A} (R : A -> A -> Prop) (f : A -> bool) (l : list A) :
  StronglySorted R l -> StronglySorted R (filter f l).
Proof.
  induction 1 as [|a l Hl IH Ha]; simpl; [constructor|].
  destruct (f a); [|exact IH].
  constructor; [exact IH|].
  rewrite Forall_forall in *. intros x Hx.
  apply filter_In in Hx as [Hx _]. now apply Ha.
Qed.

Lemma StronglySorted_snoc {A} (R : A -> A -> Prop) (l : list A) (a : A) :
  StronglySorted R l -> Forall (fun x => R x a) l ->
  StronglySorted R (l ++ [a]).
Proof.
  induction 1 as [|b l Hl IH Hb]; intros Hall; simpl.
  - repeat constructor.
  - inversion Hall as [|? ? Hba Hla]; subst.
    constructor; [now apply IH|].
    apply Forall_app. split; [exact Hb|now constructor].
Qed.

Lemma StronglySorted_rev {A} (R : A -> A -> Prop) (l : list A) :
  StronglySorted R l -> StronglySorted (fun x y => R y x) (rev l).
Proof.
  induction 1 as [|a l Hl IH Ha]; simpl; [constructor|].
  apply StronglySorted_snoc; [exact IH|].
  rewrite Forall_forall in *. intros x Hx. apply Ha. now apply in_rev.
Qed.

Section History.

Variable env : Environment.
Variable agentSessionId : jsstring.

Lemma Paging_nonempty tr after pages :
  Paging env agentSessionId tr after pages -> pages <> [].
Proof. destruct 1; discriminate. Qed.

(** Along a paging, the loop reads every page that remains. *)
Lemma fetchRemaining_paging :
  forall rest page tr after allActivities fuel,
    Paging env agentSessionId tr after (page :: rest) ->
    List.length rest <= fuel ->
    fetchRemaining env fuel agentSessionId allActivities page (hasNextPage page)
                   (tr ++ [EvActivities agentSessionId after page])
    = (Ok (allActivities ++ allNodes rest),
       tr ++ pageReads agentSessionId after (page :: rest)).
Proof.
  induction rest as [|page' rest IH]; intros page tr after allActivities fuel HP Hf.
  - inversion HP as [? ? ? Hpage Hlast|? ? ? ? ? Hpage Hnext Hcur Hne Hrest]; subst.
    + destruct fuel; cbn [fetchRemaining]; rewrite Hlast; cbn [andb];
        unfold ret, allNodes; cbn; now rewrite app_nil_r.
    + now apply Paging_nonempty in Hrest.
  - inversion HP as [|? ? ? cursor ? Hpage Hnext Hcur Hne Hrest]; subst.
    destruct fuel as [|fuel]; [simpl in Hf; lia|].
    cbn [fetchRemaining]. rewrite Hnext, Hcur.
    destruct cursor as [|c cursor]; [congruence|]. cbn [falsy negb andb].
    unfold bind at 1. unfold activities at 1.
    assert (Hp' : session_activities env
                    (tr ++ [EvActivities agentSessionId after
                              (session_activities env tr agentSessionId after)])
                    agentSessionId (Some (c :: cursor)) = page').
    { inversion Hrest; subst; reflexivity. }
    rewrite Hp'.
    rewrite (IH page' _ (Some (c :: cursor)) (allActivities ++ nodes page') fuel Hrest)
      by (simpl in Hf; lia).
    unfold allNodes. cbn [map List.concat pageReads].
    rewrite Hcur, <- !app_assoc. reflexivity.
Qed.

Lemma generateMessages_paging tr pages fuel :
  Paging env agentSessionId tr None pages ->
  List.length pages <= S fuel ->
  generateMessagesFromPreviousActivities env fuel agentSessionId tr
  = (Ok (map toMessage (rev (filter isPromptOrResponse (allNodes pages)))),
     tr ++ pageReads agentSessionId None pages).
Proof.
  intros HP Hf. destruct pages as [|page rest].
  - now apply Paging_nonempty in HP.
  - unfold generateMessagesFromPreviousActivities.
    unfold bind at 1. unfold activities at 1.
    assert (Hp : session_activities env tr agentSessionId None = page)
      by (inversion HP; subst; reflexivity).
    rewrite Hp. unfold bind.
    rewrite (fetchRemaining_paging rest page tr None (nodes page) fuel HP)
      by (simpl in Hf; lia).
    reflexivity.
Qed.

(** Whatever the store answers, reading the history calls no model and
    publishes nothing, and it does not throw. *)
Lemma fetchRemaining_quiet (fuel : nat) :
  forall allActivities connection hasNext tr,
  exists o more,
    fetchRemaining env fuel agentSessionId allActivities connection hasNext tr
    = (o, tr ++ more)
    /\ modelCalls more = 0 /\ published more = []
    /\ forall e, o <> Throw e.
Proof.
  induction fuel as [|fuel IH]; intros allActivities connection hasNext tr;
    cbn [fetchRemaining];
    destruct (hasNext && negb (falsy (endCursor connection)));
    try (eexists _, []; rewrite app_nil_r; repeat split; discriminate).
  unfold bind at 1. unfold activities at 1.
  match goal with
  | |- context [fetchRemaining env fuel agentSessionId ?a ?c ?h ?t] =>
      destruct (IH a c h t) as (o & more & -> & Hm & Hp & Ho)
  end.
  eexists o, (_ :: more). rewrite <- app_assoc. repeat split; auto.
Qed.

Lemma generateMessages_quiet (fuel : nat) (tr : Trace) :
  exists o more,
    generateMessagesFromPreviousActivities env fuel agentSessionId tr
    = (o, tr ++ more)
    /\ modelCalls more = 0 /\ published more = []
    /\ forall e, o <> Throw e.
Proof.
  unfold generateMessagesFromPreviousActivities.
  unfold bind at 1. unfold activities at 1. unfold bind.
  match goal with
  | |- context [fetchRemaining env fuel agentSessionId ?a ?c ?h ?t] =>
      destruct (fetchRemaining_quiet fuel a c h t) as (o & more & -> & Hm & Hp & Ho)
  end.
  destruct o as [all|e|].
  - eexists _, (_ :: more). rewrite <- app_assoc. unfold ret.
    repeat split; auto. discriminate.
  - now destruct (Ho e).
  - eexists _, (_ :: more). rewrite <- app_assoc.
    repeat split; auto. discriminate.
Qed.

End History.

(* ================================================================== *)
(** ** Failures inside an iteration *)
(* ================================================================== *)


Section Failures.

Variable env : Environment.
Variable agentSessionId : jsstring.

Lemma afterLoop_eq (taskComplete : bool) (iterations : nat) (tr : Trace) :
  afterLoop agentSessionId taskComplete iterations tr
  = (Ok tt,
     tr ++ if negb taskComplete && (MAX_ITERATIONS <=? iterations)
           then [EvCreateAgentActivity agentSessionId
                   (BodyContent Error maxIterationsMessage)]
           else []).
Proof.
  unfold afterLoop.
  destruct (negb taskComplete && (MAX_ITERATIONS <=? iterations));
    [reflexivity|]. unfold ret. now rewrite app_nil_r.
Qed.

(** Each of the three failures makes the [try] block throw. *)
Lemma tryIteration_throws messages tr e tr' :
  IterationFailure env agentSessionId messages tr e tr' ->
  tryIteration env agentSessionId messages tr = (Throw e, tr').
Proof.
  intros [e0 Hm|response e0 Hm Hc|response tool parameter result e0 tr0 Hm Hc Hx];
    unfold tryIteration, callLangGraphAgent, try_catch, invokeModel, bind, lift,
      throw; rewrite Hm; cbn [of_answer]; try reflexivity;
    rewrite Hc; try reflexivity.
  unfold createAgentActivity at 1. rewrite <- app_assoc. cbn [app].
  rewrite Hx. reflexivity.
Qed.

(** And the [try] block throws for no other reason. *)
Lemma tryIteration_throws_inv messages tr e tr' :
  tryIteration env agentSessionId messages tr = (Throw e, tr') ->
  IterationFailure env agentSessionId messages tr e tr'.
Proof.
  unfold tryIteration, callLangGraphAgent, try_catch, invokeModel, bind, lift,
    throw.
  destruct (model_invoke env tr (SystemMessage (prompt env) :: messages))
    as [e0|response] eqn:Hm; cbn [of_answer].
  { intros H; injection H as <- <-. now constructor. }
  destruct (mapResponseToLinearActivityContent response) as [c|e0|] eqn:Hc;
    [|intros H; injection H as <- <-; eapply ClassificationFailure; eauto
     |discriminate].
  destruct c as [t body|tool parameter result].
  - destruct t; unfold createAgentActivity, setTimeout, ret; discriminate.
  - unfold createAgentActivity at 1. rewrite <- app_assoc. cbn [app].
    destruct (executeAction env tool parameter _) as [[r|e0|] tr0] eqn:Hx.
    + unfold createAgentActivity, setTimeout, ret. discriminate.
    + intros H; injection H as <- <-.
      eapply ToolFailure; eauto.
    + discriminate.
Qed.

(** Before the exception reaches the [catch], the iteration has called the
    model once and has published no Error. *)
Lemma IterationFailure_trace messages tr e tr' :
  IterationFailure env agentSessionId messages tr e tr' ->
  exists more,
    tr' = tr ++ more /\ modelCalls more = 1
    /\ filter isErrorContent (published more) = [].
Proof.
  intros [e0 Hm|response e0 Hm Hc|response tool parameter result e0 tr0 Hm Hc Hx].
  - eexists [_]. repeat split.
  - eexists [_]. repeat split.
  - destruct (executeAction_cases env tool parameter
                (tr ++ [EvInvoke (SystemMessage (prompt env) :: messages)
                          (inr response);
                        EvCreateAgentActivity agentSessionId
                          (ActionContent tool parameter result)]))
      as [(call & raw & r & E & _)|[(call & e1 & E & _)|(e1 & E)]];
      rewrite E in Hx; try discriminate; injection Hx as <- <-.
    + eexists [_; _; _]. rewrite <- app_assoc. repeat split.
    + eexists [_; _]. repeat split.
Qed.

End Failures.

Lemma getWeather_unparsable env tr :
  executeAction env getWeather (Some (js "abc,def")) tr
  = (Throw (JsError (js "Invalid parameter for getWeather action")), tr).
Proof. reflexivity. Qed.

(* ================================================================== *)
(** ** Rounds of the loop, told by what the model replied *)
(* ================================================================== *)

Lemma classify_body_types (response : jsstring) type body :
  mapResponseToLinearActivityContent response = Ok (BodyContent type body) ->
  type = Thought \/ isTerminalType type = true.
Proof.
  unfold mapResponseToLinearActivityContent.
  destruct (find _ typeToKeyword) as [[t k]|].
  - destruct t; try discriminate;
      try (intros H; injection H as <- _; auto).
    destruct (matchAction response) as [[n p]|]; [|discriminate].
    destruct (toToolName n); discriminate.
  - intros H; injection H as <- _. auto.
Qed.

Section RoundKinds.

Variable env : Environment.
Variable agentSessionId : jsstring.

Lemma round_thought messages tr response body :
  model_invoke env tr (SystemMessage (prompt env) :: messages) = inr response ->
  mapResponseToLinearActivityContent response = Ok (BodyContent Thought body) ->
  try_catch (tryIteration env agentSessionId messages)
            (catchIteration env agentSessionId messages) tr
  = (Ok (messages ++ [AIMessage response], false),
     tr ++ [EvInvoke (SystemMessage (prompt env) :: messages) (inr response);
            EvCreateAgentActivity agentSessionId (BodyContent Thought body);
            EvSetTimeout 1000]).
Proof.
  intros Hm Hc.
  unfold try_catch, tryIteration, callLangGraphAgent, try_catch, invokeModel,
    bind, lift. rewrite Hm. cbn [of_answer]. rewrite Hc.
  unfold createAgentActivity, setTimeout, ret.
  rewrite <- !app_assoc. reflexivity.
Qed.

Lemma round_action messages tr response tool parameter result toolResult tr1 :
  model_invoke env tr (SystemMessage (prompt env) :: messages) = inr response ->
  mapResponseToLinearActivityContent response
  = Ok (ActionContent tool parameter result) ->
  executeAction env tool parameter
    (tr ++ [EvInvoke (SystemMessage (prompt env) :: messages) (inr response);
            EvCreateAgentActivity agentSessionId
              (ActionContent tool parameter result)])
  = (Ok toolResult, tr1) ->
  try_catch (tryIteration env agentSessionId messages)
            (catchIteration env agentSessionId messages) tr
  = (Ok (messages ++ [AIMessage response;
                      HumanMessage (js "Tool result: " ++ toolResult)], false),
     tr1 ++ [EvCreateAgentActivity agentSessionId
               (ActionContent tool (orNull parameter) (Some toolResult));
             EvSetTimeout 1000]).
Proof.
  intros Hm Hc Hx.
  unfold try_catch, tryIteration, callLangGraphAgent, try_catch, invokeModel,
    bind, lift. rewrite Hm. cbn [of_answer]. rewrite Hc.
  unfold createAgentActivity at 1. rewrite <- app_assoc. cbn [app].
  rewrite Hx. unfold createAgentActivity, setTimeout, ret.
  rewrite <- !app_assoc. reflexivity.
Qed.

Lemma round_terminal messages tr response type body :
  model_invoke env tr (SystemMessage (prompt env) :: messages) = inr response ->
  mapResponseToLinearActivityContent response = Ok (BodyContent type body) ->
  isTerminalType type = true ->
  try_catch (tryIteration env agentSessionId messages)
            (catchIteration env agentSessionId messages) tr
  = (Ok (messages, true),
     tr ++ [EvInvoke (SystemMessage (prompt env) :: messages) (inr response);
            EvCreateAgentActivity agentSessionId (BodyContent type body)]).
Proof.
  intros Hm Hc Ht.
  unfold try_catch, tryIteration, callLangGraphAgent, try_catch, invokeModel,
    bind, lift. rewrite Hm. cbn [of_answer]. rewrite Hc.
  destruct type; try discriminate;
    unfold createAgentActivity, ret; rewrite <- !app_assoc; reflexivity.
Qed.

Lemma round_failure messages tr e tr' :
  IterationFailure env agentSessionId messages tr e tr' ->
  try_catch (tryIteration env agentSessionId messages)
            (catchIteration env agentSessionId messages) tr
  = (Ok (messages, true),
     tr' ++ [EvCreateAgentActivity agentSessionId
               (BodyContent Error (js "Agent error: " ++ errorMessage env e))]).
Proof.
  intros H. unfold try_catch.
  rewrite (tryIteration_throws env agentSessionId messages tr e tr' H).
  reflexivity.
Qed.

(** Every round is of one of the two kinds, and the flag it returns tells
    which. *)
Lemma round_quiet_or_ending messages tr :
  (exists messages1 tr1,
      QuietRounds env agentSessionId 1 messages tr messages1 tr1
      /\ try_catch (tryIteration env agentSessionId messages)
                   (catchIteration env agentSessionId messages) tr
         = (Ok (messages1, false), tr1))
  \/ (EndingRound env agentSessionId messages tr
      /\ exists tr1,
          try_catch (tryIteration env agentSessionId messages)
                    (catchIteration env agentSessionId messages) tr
          = (Ok (messages, true), tr1)).
Proof.
  destruct (model_invoke env tr (SystemMessage (prompt env) :: messages))
    as [e|response] eqn:Hm.
  { right. pose proof (ModelFailure env agentSessionId messages tr e Hm) as F.
    split; [eapply Ends_failure; exact F|].
    eexists. exact (round_failure _ _ _ _ F). }
  destruct (mapResponseToLinearActivityContent response) as [c|e|] eqn:Hc.
  3:{ now apply classify_total in Hc. }
  2:{ right.
      pose proof (ClassificationFailure env agentSessionId messages tr response e
                    Hm Hc) as F.
      split; [eapply Ends_failure; exact F|].
      eexists. exact (round_failure _ _ _ _ F). }
  destruct c as [type body|tool parameter result].
  - destruct (classify_body_types _ _ _ Hc) as [->|Ht].
    + left. eexists _, _. split.
      * eapply Quiet_thought; [exact Hm|exact Hc|apply Quiet_none].
      * exact (round_thought _ _ _ _ Hm Hc).
    + right. split; [eapply Ends_terminal; eauto|].
      eexists. exact (round_terminal _ _ _ _ _ Hm Hc Ht).
  - destruct (executeAction env tool parameter
                (tr ++ [EvInvoke (SystemMessage (prompt env) :: messages)
                          (inr response);
                        EvCreateAgentActivity agentSessionId
                          (ActionContent tool parameter result)]))
      as [[toolResult|e|] tr1] eqn:Hx.
    + left. eexists _, _. split.
      * eapply Quiet_action; [exact Hm|exact Hc|exact Hx|apply Quiet_none].
      * exact (round_action _ _ _ _ _ _ _ _ Hm Hc Hx).
    + right.
      pose proof (ToolFailure env agentSessionId messages tr response tool
                    parameter result e tr1 Hm Hc Hx) as F.
      split; [eapply Ends_failure; exact F|].
      eexists. exact (round_failure _ _ _ _ F).
    + exfalso.
      destruct (executeAction_cases env tool parameter
                  (tr ++ [EvInvoke (SystemMessage (prompt env) :: messages)
                            (inr response);
                          EvCreateAgentActivity agentSessionId
                            (ActionContent tool parameter result)]))
        as [(c & raw & r & E & _)|[(c & e & E & _)|(e & E)]];
        rewrite E in Hx; discriminate.
Qed.

Lemma QuietRounds_app n1 n2 m0 tr0 m1 tr1 m2 tr2 :
  QuietRounds env agentSessionId n1 m0 tr0 m1 tr1 ->
  QuietRounds env agentSessionId n2 m1 tr1 m2 tr2 ->
  QuietRounds env agentSessionId (n1 + n2) m0 tr0 m2 tr2.
Proof.
  induction 1 as [m tr|n m tr response body m' tr' Hm Hc _ IH
                 |n m tr response tool parameter result toolResult trx m' tr'
                    Hm Hc Hx _ IH]; intros H2.
  - exact H2.
  - cbn [Nat.add]. eapply Quiet_thought; eauto.
  - cbn [Nat.add]. eapply Quiet_action; eauto.
Qed.

(** A quiet round is no ending round. *)
Lemma quiet_round_not_ending messages tr messages1 tr1 n :
  QuietRounds env agentSessionId (S n) messages tr messages1 tr1 ->
  EndingRound env agentSessionId messages tr -> False.
Proof.
  intros Q E. inversion Q as [|? ? ? response body ? ? Hm Hc _
                              |? ? ? response tool parameter result toolResult trx
                                 ? ? Hm Hc Hx _]; subst.
  - destruct E as [response' type body' Hm' Hc' Ht|e tr' F].
    + rewrite Hm in Hm'. injection Hm' as <-. rewrite Hc in Hc'.
      injection Hc' as <- _. discriminate.
    + destruct F as [e0 Hm'|response' e0 Hm' Hc'
                    |response' tool parameter result e0 tr0 Hm' Hc' Hx'].
      * rewrite Hm in Hm'. discriminate.
      * rewrite Hm in Hm'. injection Hm' as <-. rewrite Hc in Hc'. discriminate.
      * rewrite Hm in Hm'. injection Hm' as <-. rewrite Hc in Hc'. discriminate.
  - destruct E as [response' type body' Hm' Hc' Ht|e tr' F].
    + rewrite Hm in Hm'. injection Hm' as <-. rewrite Hc in Hc'. discriminate.
    + destruct F as [e0 Hm'|response' e0 Hm' Hc'
                    |response' tool' parameter' result' e0 tr0 Hm' Hc' Hx'].
      * rewrite Hm in Hm'. discriminate.
      * rewrite Hm in Hm'. injection Hm' as <-. rewrite Hc in Hc'. discriminate.
      * rewrite Hm in Hm'. injection Hm' as <-. rewrite Hc in Hc'.
        injection Hc' as <- <- <-. rewrite Hx in Hx'. discriminate.
Qed.

(** Quiet rounds are determined by the state they start from; so a run of
    quiet rounds cannot meet an ending round on its way. *)
Lemma quiet_rounds_exclude_ending n messages tr messages' tr' :
  QuietRounds env agentSessionId n messages tr messages' tr' ->
  forall k mk trk,
    k < n ->
    QuietRounds env agentSessionId k messages tr mk trk ->
    EndingRound env agentSessionId mk trk -> False.
Proof.
  induction 1 as [m tr|n m tr response body m' tr' Hm Hc Hrest IH
                 |n m tr response tool parameter result toolResult trx m' tr'
                    Hm Hc Hx Hrest IH]; intros k mk trk Hk Qk E.
  - lia.
  - destruct k as [|k].
    + inversion Qk; subst.
      eapply quiet_round_not_ending; [|exact E].
      eapply Quiet_thought; eauto.
    + inversion Qk as [|? ? ? response' body' ? ? Hm' Hc' Hrest'
                       |? ? ? response' tool' parameter' result' toolResult' trx'
                          ? ? Hm' Hc' Hx' Hrest']; subst.
      * rewrite Hm in Hm'. injection Hm' as <-. rewrite Hc in Hc'.
        injection Hc' as <-. apply (IH k mk trk); [lia|exact Hrest'|exact E].
      * rewrite Hm in Hm'. injection Hm' as <-. rewrite Hc in Hc'. discriminate.
  - destruct k as [|k].
    + inversion Qk; subst.
      eapply quiet_round_not_ending; [|exact E].
      eapply Quiet_action; eauto.
    + inversion Qk as [|? ? ? response' body' ? ? Hm' Hc' Hrest'
                       |? ? ? response' tool' parameter' result' toolResult' trx'
                          ? ? Hm' Hc' Hx' Hrest']; subst.
      * rewrite Hm in Hm'. injection Hm' as <-. rewrite Hc in Hc'. discriminate.
      * rewrite Hm in Hm'. injection Hm' as <-. rewrite Hc in Hc'.
        injection Hc' as <- <- <-. rewrite Hx in Hx'. injection Hx' as <- <-.
        apply (IH k mk trk); [lia|exact Hrest'|exact E].
Qed.

(** The loop runs quiet rounds until the budget is used up or an ending
    round sets [taskComplete]. *)
Lemma turnLoop_rounds (n : nat) :
  forall fuel messages iterations tr,
    iterations + n = MAX_ITERATIONS -> n <= fuel ->
    exists messages' taskComplete iterations' tr',
      turnLoop env fuel agentSessionId messages false iterations tr
      = (Ok (messages', taskComplete, iterations'), tr')
      /\ ((taskComplete = false
           /\ QuietRounds env agentSessionId n messages tr messages' tr')
          \/ (taskComplete = true
              /\ exists k mk trk,
                  k < n
                  /\ QuietRounds env agentSessionId k messages tr mk trk
                  /\ EndingRound env agentSessionId mk trk)).
Proof.
  induction n as [|n IH]; intros fuel messages iterations tr Hn Hf.
  - rewrite turnLoop_done
      by (cbn [negb andb]; apply Nat.ltb_ge; lia).
    eexists _, _, _, _. split; [reflexivity|]. left. split; [reflexivity|].
    apply Quiet_none.
  - destruct fuel as [|fuel]; [lia|].
    rewrite (turnLoop_step env agentSessionId fuel messages iterations tr)
      by lia.
    destruct (round_quiet_or_ending messages tr)
      as [(m1 & tr1 & Q1 & ->)|(E & tr1 & ->)]; cbn [fst snd].
    + destruct (IH fuel m1 (S iterations) tr1) as
        (m' & tc & it' & tr' & -> & H); [lia|lia|].
      eexists _, _, _, _. split; [reflexivity|].
      destruct H as [[-> Q]|[-> (k & mk & trk & Hk & Qk & Ek)]].
      * left. split; [reflexivity|].
        exact (QuietRounds_app 1 n _ _ _ _ _ _ Q1 Q).
      * right. split; [reflexivity|]. exists (S k), mk, trk.
        split; [lia|]. split; [|exact Ek].
        exact (QuietRounds_app 1 k _ _ _ _ _ _ Q1 Qk).
    + rewrite turnLoop_done by reflexivity.
      eexists _, _, _, _. split; [reflexivity|]. right. split; [reflexivity|].
      exists 0, messages, tr. split; [lia|]. split; [apply Quiet_none|exact E].
Qed.

End RoundKinds.

(* ================================================================== *)
(** ** Properties of the turn loop and of the history *)
(* ================================================================== *)

Lemma MAX_ITERATIONS_pos : 0 < MAX_ITERATIONS.
Proof. unfold MAX_ITERATIONS. lia. Qed.

(** With enough fuel for the pages of the session and for the iterations,
    [handleUserPrompt] returns. *)
Lemma handleUserPrompt_returns env fuel agentSessionId userPrompt tr pages :
  Paging env agentSessionId tr None pages ->
  List.length pages <= S fuel -> MAX_ITERATIONS <= fuel ->
  fst (handleUserPrompt env fuel agentSessionId userPrompt tr) = Ok tt.
Proof.
  intros HP Hp Hf. unfold handleUserPrompt. unfold bind at 1.
  rewrite (generateMessages_paging env agentSessionId tr pages fuel HP Hp).
  unfold bind.
  match goal with
  | |- context [turnLoop env fuel agentSessionId ?m false 0 ?t] =>
      destruct (turnLoop_spec env agentSessionId fuel m false 0 t)
        as (o & more & -> & _ & Ho)
  end.
  destruct o as [[[m' tc'] it']|e|]; [|destruct Ho|lia].
  now rewrite afterLoop_eq.
Qed.

(** C2.  Whatever the model, the tools and the store answer, and whatever the
    fuel, one run of [handleUserPrompt] calls the model at most
    [MAX_ITERATIONS] times, which is 10. *)
Theorem model_calls_bounded env fuel agentSessionId userPrompt tr :
  exists emitted,
    snd (handleUserPrompt env fuel agentSessionId userPrompt tr) = tr ++ emitted
    /\ modelCalls emitted <= MAX_ITERATIONS
    /\ MAX_ITERATIONS = 10.
Proof.
  unfold handleUserPrompt. unfold bind at 1.
  destruct (generateMessages_quiet env agentSessionId fuel tr)
    as (o1 & m1 & -> & Hm1 & _ & Ho1).
  destruct o1 as [previous|e|].
  - unfold bind.
    destruct (turnLoop_spec env agentSessionId fuel
                (HumanMessage userPrompt :: previous) false 0 (tr ++ m1))
      as (o & m2 & -> & Hle & Ho).
    destruct o as [[[m' tc'] it']|e|].
    + rewrite afterLoop_eq. cbn [snd].
      eexists. rewrite <- !app_assoc. split; [reflexivity|].
      split; [|reflexivity].
      rewrite !modelCalls_app, Hm1.
      destruct (negb tc' && (MAX_ITERATIONS <=? it')); cbn; lia.
    + destruct Ho.
    + cbn [snd]. exists (m1 ++ m2). rewrite <- app_assoc.
      split; [reflexivity|]. split; [|reflexivity].
      rewrite modelCalls_app. lia.
  - now destruct (Ho1 e).
  - cbn [snd]. exists m1. split; [reflexivity|]. split; [lia|reflexivity].
Qed.

(** C4.  When the model call, the classification or the tool execution of an
    iteration fails, the exception is caught in that iteration: one Error
    activity, "Agent error: " followed by the message of the exception, is
    published (the iteration published no Error before it), the loop ends at
    once with [taskComplete] set and without another model call, and nothing
    is published after the loop.  Coordinates that do not parse, such as
    "abc,def" for [getWeather], are such a failure of the tool execution. *)
Theorem failure_caught_once env fuel agentSessionId messages iterations tr e tr' :
  iterations < MAX_ITERATIONS ->
  IterationFailure env agentSessionId messages tr e tr' ->
  let errorActivity :=
    EvCreateAgentActivity agentSessionId
      (BodyContent Error (js "Agent error: " ++ errorMessage env e)) in
  turnLoop env (S fuel) agentSessionId messages false iterations tr
  = (Ok (messages, true, S iterations), tr' ++ [errorActivity])
  /\ afterLoop agentSessionId true (S iterations) (tr' ++ [errorActivity])
     = (Ok tt, tr' ++ [errorActivity])
  /\ (exists before,
         tr' = tr ++ before /\ modelCalls before = 1
         /\ filter isErrorContent (published (before ++ [errorActivity]))
            = [BodyContent Error (js "Agent error: " ++ errorMessage env e)])
  /\ (forall tr0,
         executeAction env getWeather (Some (js "abc,def")) tr0
         = (Throw (JsError (js "Invalid parameter for getWeather action")), tr0)).
Proof.
  intros Hit Hfail errorActivity.
  split; [|split; [|split]].
  - rewrite (turnLoop_step env agentSessionId fuel messages iterations tr Hit).
    unfold try_catch.
    rewrite (tryIteration_throws env agentSessionId messages tr e tr' Hfail).
    unfold catchIteration, bind, createAgentActivity, ret. cbn [fst snd].
    apply turnLoop_done. reflexivity.
  - rewrite afterLoop_eq. cbn [negb andb]. now rewrite app_nil_r.
  - destruct (IterationFailure_trace env agentSessionId messages tr e tr' Hfail)
      as (before & -> & Hcalls & Herr).
    exists before. split; [reflexivity|]. split; [exact Hcalls|].
    rewrite published_app, filter_app, Herr. reflexivity.
  - intros tr0. apply getWeather_unparsable.
Qed.

(** C5.  For a session whose activities the store serves in any number of
    pages, the reconstruction reads every page, keeps the Prompt and Response
    activities, reverses them and maps a Prompt to a human message and a
    Response to an assistant message.  The history is as long as there are
    Prompt and Response activities on all the pages together, however they
    are cut into pages; it is in chronological order when the store lists the
    newest activity first; and it is empty for a session without
    activities. *)
Theorem history_reconstruction env agentSessionId tr pages fuel :
  Paging env agentSessionId tr None pages ->
  List.length pages <= S fuel ->
  let kept := filter isPromptOrResponse (allNodes pages) in
  let history := map toMessage (rev kept) in
  generateMessagesFromPreviousActivities env fuel agentSessionId tr
  = (Ok history, tr ++ pageReads agentSessionId None pages)
  /\ List.length history = List.length kept
  /\ (forall a, In a kept <->
                In a (allNodes pages)
                /\ (content_type (content a) = Prompt
                    \/ content_type (content a) = Response))
  /\ (forall a body, content a = BodyContent Prompt body ->
                     toMessage a = HumanMessage body)
  /\ (forall a body, content a = BodyContent Response body ->
                     toMessage a = AIMessage body)
  /\ (StronglySorted (fun a b => (createdAt b <= createdAt a)%N) (allNodes pages) ->
      StronglySorted (fun a b => (createdAt a <= createdAt b)%N) (rev kept))
  /\ (allNodes pages = [] -> history = [])
  /\ (forall env' tr2 pages' fuel',
         Paging env' agentSessionId tr2 None pages' ->
         List.length pages' <= S fuel' ->
         allNodes pages' = allNodes pages ->
         fst (generateMessagesFromPreviousActivities env' fuel' agentSessionId tr2)
         = Ok history).
Proof.
  intros HP Hf kept history.
  split; [exact (generateMessages_paging env agentSessionId tr pages fuel HP Hf)|].
  split; [unfold history; now rewrite length_map, length_rev|].
  split.
  { intros a. unfold kept. rewrite filter_In. unfold isPromptOrResponse.
    rewrite orb_true_iff.
    destruct (content_type (content a)); simpl; intuition congruence. }
  split; [intros a body H; unfold toMessage; now rewrite H|].
  split; [intros a body H; unfold toMessage; now rewrite H|].
  split.
  { intros Hs. unfold kept.
    apply (StronglySorted_rev (fun a b => (createdAt b <= createdAt a)%N)).
    now apply StronglySorted_filter. }
  split; [intros Hn; unfold history, kept; now rewrite Hn|].
  intros env' tr2 pages' fuel' HP' Hf' Hsame.
  rewrite (generateMessages_paging env' agentSessionId tr2 pages' fuel' HP' Hf').
  unfold history, kept. now rewrite Hsame.
Qed.

(** C6.  With fuel for [MAX_ITERATIONS] rounds the loop returns.  It leaves
    with [taskComplete] unset exactly when [MAX_ITERATIONS] rounds in a row
    got a reply classified as a Thought, or as an Action whose tool
    execution returned: no round produced a terminal variant and none
    failed.  It leaves with [taskComplete] set exactly when, after fewer
    such rounds, a round got a reply classified as a Response, an
    Elicitation or an Error, or failed in its model call, its classification
    or its tool execution.  The Error activity that tells that the limit was
    reached is published after the loop, once, in the first case, and
    nothing is published after the loop in the second. *)
Theorem budget_error_iff env fuel agentSessionId messages tr :
  MAX_ITERATIONS <= fuel ->
  exists messages' taskComplete iterations loopEvents,
    turnLoop env fuel agentSessionId messages false 0 tr
    = (Ok (messages', taskComplete, iterations), tr ++ loopEvents)
    /\ (taskComplete = false
        <-> QuietRounds env agentSessionId MAX_ITERATIONS messages tr
                        messages' (tr ++ loopEvents))
    /\ (taskComplete = true
        <-> exists k mk trk,
            k < MAX_ITERATIONS
            /\ QuietRounds env agentSessionId k messages tr mk trk
            /\ EndingRound env agentSessionId mk trk)
    /\ taskComplete = hasTerminal (published loopEvents)
    /\ (afterLoop agentSessionId taskComplete iterations (tr ++ loopEvents)
        = (Ok tt, (tr ++ loopEvents)
                  ++ [EvCreateAgentActivity agentSessionId
                        (BodyContent Error maxIterationsMessage)])
        <-> taskComplete = false)
    /\ (taskComplete = false ->
        iterations = MAX_ITERATIONS /\ modelCalls loopEvents = MAX_ITERATIONS)
    /\ (taskComplete = true ->
        afterLoop agentSessionId taskComplete iterations (tr ++ loopEvents)
        = (Ok tt, tr ++ loopEvents)).
Proof.
  intros Hfuel.
  destruct (turnLoop_spec env agentSessionId fuel messages false 0 tr)
    as (o & more & E & _ & Ho).
  destruct (turnLoop_rounds env agentSessionId MAX_ITERATIONS fuel messages 0 tr
              eq_refl Hfuel)
    as (messages' & taskComplete & iterations & tr' & E' & Hrounds).
  rewrite E in E'. injection E' as -> <-.
  destruct Ho as (_ & Hcalls & Htc & Hmax & Hle).
  exists messages', taskComplete, iterations, more.
  split; [exact E|].
  split.
  { split.
    - intros Hf. destruct Hrounds as [[_ Q]|[Ht _]]; [exact Q|congruence].
    - intros Q. destruct Hrounds as [[Hf _]|[_ (k & mk & trk & Hk & Qk & Ek)]];
        [exact Hf|].
      exfalso.
      exact (quiet_rounds_exclude_ending env agentSessionId _ _ _ _ _ Q
               k mk trk Hk Qk Ek). }
  split.
  { split.
    - intros Ht. destruct Hrounds as [[Hf _]|[_ H]]; [congruence|exact H].
    - intros (k & mk & trk & Hk & Qk & Ek).
      destruct Hrounds as [[_ Q]|[Ht _]]; [|exact Ht].
      exfalso.
      exact (quiet_rounds_exclude_ending env agentSessionId _ _ _ _ _ Q
               k mk trk Hk Qk Ek). }
  split; [exact Htc|].
  assert (Hfull : taskComplete = false -> iterations = MAX_ITERATIONS).
  { intros Hf. specialize (Hmax Hf). specialize (Hle (Nat.le_0_l _)). lia. }
  rewrite afterLoop_eq.
  split; [|split].
  - split.
    + intros Heq. destruct taskComplete; [|reflexivity].
      cbn [negb andb] in Heq. injection Heq as Heq.
      apply app_inv_head in Heq. discriminate.
    + intros Hf. rewrite Hf, (Hfull Hf), Nat.leb_refl. reflexivity.
  - intros Hf. split; [now apply Hfull|]. rewrite Hcalls, (Hfull Hf). lia.
  - intros ->. cbn [negb andb]. now rewrite app_nil_r.
Qed.

(** C9.  The first model call of [handleUserPrompt] receives, after the
    system prompt, the new human message with the user prompt and then the
    reconstructed history. *)
Theorem first_call_messages env fuel agentSessionId userPrompt tr previous tr1 :
  generateMessagesFromPreviousActivities env fuel agentSessionId tr
  = (Ok previous, tr1) ->
  0 < fuel ->
  exists reply rest,
    snd (handleUserPrompt env fuel agentSessionId userPrompt tr)
    = tr1 ++ EvInvoke (SystemMessage (prompt env)
                         :: HumanMessage userPrompt :: previous) reply
          :: rest
    /\ modelCalls tr1 = modelCalls tr.
Proof.
  intros Hg Hf.
  destruct (generateMessages_quiet env agentSessionId fuel tr)
    as (o1 & m1 & E1 & Hm1 & _ & _).
  rewrite E1 in Hg. injection Hg as -> <-.
  unfold handleUserPrompt. unfold bind at 1. rewrite E1. unfold bind.
  destruct fuel as [|fuel]; [lia|].
  rewrite (turnLoop_step env agentSessionId fuel _ 0 _ MAX_ITERATIONS_pos).
  destruct (iteration_spec env agentSessionId
              (HumanMessage userPrompt :: previous) (tr ++ m1))
    as (rest & messages' & tc & -> & _ & _).
  cbn [fst snd].
  match goal with
  | |- context [turnLoop env fuel agentSessionId ?m ?c ?i ?t] =>
      destruct (turnLoop_spec env agentSessionId fuel m c i t)
        as (o & more & -> & _ & Ho)
  end.
  destruct o as [[[m' tc'] it']|e|]; [|destruct Ho|].
  - rewrite afterLoop_eq. cbn [snd]. eexists _, _.
    rewrite <- !app_assoc. cbn [app].
    split; [reflexivity|rewrite modelCalls_app; lia].
  - cbn [snd]. eexists _, _. rewrite <- !app_assoc. cbn [app].
    split; [reflexivity|rewrite modelCalls_app; lia].
Qed.

(* ================================================================== *)
(** ** The properties on concrete runs *)
(* ================================================================== *)

Lemma failure_caught_once_witness :
  let s := js "session-1" in
  let messages := [HumanMessage (js "Weather?")] in
  let response := js "ACTION: getWeather(abc,def)" in
  let e := JsError (js "Invalid parameter for getWeather action") in
  let tr' :=
    [EvInvoke (SystemMessage (prompt unparsableWorld) :: messages) (inr response);
     EvCreateAgentActivity s (ActionContent getWeather (Some (js "abc,def")) None)] in
  0 < MAX_ITERATIONS
  /\ IterationFailure unparsableWorld s messages [] e tr'
  /\ turnLoop unparsableWorld 1 s messages false 0 []
     = (Ok (messages, true, 1),
        tr' ++ [EvCreateAgentActivity s
                  (BodyContent Error
                     (js "Agent error: Invalid parameter for getWeather action"))]).
Proof.
  intros s messages response e tr'.
  assert (H0 : 0 < MAX_ITERATIONS) by (unfold MAX_ITERATIONS; lia).
  assert (HF : IterationFailure unparsableWorld s messages [] e tr').
  { apply (ToolFailure unparsableWorld s messages [] response getWeather
             (Some (js "abc,def")) None e tr'); reflexivity. }
  split; [exact H0|]. split; [exact HF|].
  exact (proj1 (failure_caught_once unparsableWorld 0 s messages 0 [] e tr' H0 HF)).
Defined.

Lemma twoPageStore_paging :
  Paging historyWorld (js "session-1") [] None [newerPage; olderPage].
Proof.
  apply Paging_next with (cursor := js "cursor-1");
    [reflexivity|reflexivity|reflexivity|discriminate|].
  apply Paging_last; reflexivity.
Defined.

Lemma history_reconstruction_witness :
  Paging historyWorld (js "session-1") [] None [newerPage; olderPage]
  /\ List.length [newerPage; olderPage] <= 2
  /\ generateMessagesFromPreviousActivities historyWorld 1 (js "session-1") []
     = (Ok [HumanMessage (js "What is the weather in Paris?");
            AIMessage (js "It is sunny in Paris.")],
        [EvActivities (js "session-1") None newerPage;
         EvActivities (js "session-1") (Some (js "cursor-1")) olderPage]).
Proof.
  assert (Hlen : List.length [newerPage; olderPage] <= 2) by (simpl; lia).
  split; [exact twoPageStore_paging|]. split; [exact Hlen|].
  exact (proj1 (history_reconstruction historyWorld (js "session-1") []
                  [newerPage; olderPage] 1 twoPageStore_paging Hlen)).
Defined.

Lemma budget_error_iff_witness :
  let s := js "session-1" in
  let messages := [HumanMessage (js "Weather?")] in
  MAX_ITERATIONS <= 10
  /\ exists messages' loopEvents,
      turnLoop thinkingWorld 10 s messages false 0 []
      = (Ok (messages', false, 10), loopEvents)
      /\ QuietRounds thinkingWorld s MAX_ITERATIONS messages [] messages' loopEvents
      /\ modelCalls loopEvents = 10
      /\ hasTerminal (published loopEvents) = false
      /\ afterLoop s false 10 loopEvents
         = (Ok tt, loopEvents ++ [EvCreateAgentActivity s
                                    (BodyContent Error maxIterationsMessage)]).
Proof.
  intros s messages.
  assert (Hfuel : MAX_ITERATIONS <= 10) by (unfold MAX_ITERATIONS; lia).
  split; [exact Hfuel|].
  destruct (budget_error_iff thinkingWorld 10 s messages [] Hfuel)
    as (messages' & tc & its & events & Hrun & Hquiet & _ & Htc & Hiff & Hfull & _).
  assert (Hflag : tc = false).
  { apply (f_equal fst) in Hrun. vm_compute in Hrun. now injection Hrun. }
  destruct (Hfull Hflag) as [Hits Hcalls].
  pose proof (proj1 Hquiet Hflag) as Q.
  rewrite Hflag in Htc. rewrite Hflag, Hits in Hrun, Hiff.
  exists messages', events. cbn [app] in Hrun, Hiff, Q.
  split; [exact Hrun|]. split; [exact Q|]. split; [exact Hcalls|].
  split; [now symmetry|].
  apply Hiff. reflexivity.
Defined.

Lemma first_call_messages_witness :
  let s := js "session-1" in
  let reads :=
    [EvActivities s None newerPage;
     EvActivities s (Some (js "cursor-1")) olderPage] in
  let previous :=
    [HumanMessage (js "What is the weather in Paris?");
     AIMessage (js "It is sunny in Paris.")] in
  generateMessagesFromPreviousActivities historyWorld 20 s [] = (Ok previous, reads)
  /\ 0 < 20
  /\ exists reply rest,
      snd (handleUserPrompt historyWorld 20 s (js "And now?") [])
      = reads ++ EvInvoke (SystemMessage (prompt historyWorld)
                             :: HumanMessage (js "And now?") :: previous) reply
              :: rest
      /\ modelCalls reads = modelCalls [].
Proof.
  intros s reads previous.
  assert (Hpos : 0 < 20) by lia.
  split; [reflexivity|]. split; [exact Hpos|].
  exact (first_call_messages historyWorld 20 s (js "And now?") [] previous reads
           eq_refl Hpos).
Defined.

(** The scenario of the specification, a thought, a call of [getCoordinates]
    and a response, as the agent runs it: the call of the exported tool
    throws, so the second round ends the run with an Error and the response
    is never asked for. *)
Example paris_scenario :
  let run := handleUserPrompt parisWorld 10 (js "session-1")
               (js "What is the weather in Paris?") [] in
  fst run = Ok tt
  /\ modelCalls (snd run) = 2
  /\ published (snd run)
     = [BodyContent Thought (js "I should find coordinates first");
        ActionContent getCoordinates (Some (js "Paris")) None;
        BodyContent Error (js "Agent error: getCoordinates is not a function")].
Proof. vm_compute. repeat split. Qed.

(* ================================================================== *)
(** ** Further properties of the classifier *)
(* ================================================================== *)

Lemma trimStart_head (s : jsstring) c rest :
  trimStart s = c :: rest -> isWhiteSpace c = false.
Proof. unfold trimStart. apply span_stop. Qed.

Lemma trimStart_snoc (a : jsstring) c :
  isWhiteSpace c = false -> trimStart (a ++ [c]) = trimStart a ++ [c].
Proof.
  intros Hc. unfold trimStart.
  induction a as [|x a IH]; simpl.
  - now rewrite Hc.
  - destruct (isWhiteSpace x); [|reflexivity].
    destruct (span isWhiteSpace (a ++ [c])) as [p q].
    destruct (span isWhiteSpace a) as [p' q']. exact IH.
Qed.

Lemma trimEnd_cons (c : N) (t : jsstring) :
  isWhiteSpace c = false -> trimEnd (c :: t) = c :: trimEnd t.
Proof.
  intros Hc. unfold trimEnd. simpl rev.
  rewrite (trimStart_snoc _ _ Hc), rev_app_distr. reflexivity.
Qed.

Lemma trimEnd_last (s front : jsstring) c :
  trimEnd s = front ++ [c] -> isWhiteSpace c = false.
Proof.
  unfold trimEnd. intros H.
  apply (f_equal (@rev N)) in H. rewrite rev_involutive, rev_app_distr in H.
  simpl in H. now apply trimStart_head in H.
Qed.

(** [trim] leaves no white space at either end. *)
Lemma trim_ends (s : jsstring) :
  (forall c rest, trim s = c :: rest -> isWhiteSpace c = false)
  /\ (forall front c, trim s = front ++ [c] -> isWhiteSpace c = false).
Proof.
  unfold trim. split.
  - intros c rest H.
    destruct (trimStart s) as [|x t] eqn:E.
    + discriminate.
    + pose proof (trimStart_head _ _ _ E) as Hx.
      rewrite (trimEnd_cons _ _ Hx) in H. injection H as <- _. exact Hx.
  - intros front c. apply trimEnd_last.
Qed.

Lemma classify_Ok_body (response : jsstring) type body :
  mapResponseToLinearActivityContent response = Ok (BodyContent type body) ->
  exists text, body = trim text.
Proof.
  unfold mapResponseToLinearActivityContent.
  destruct (find _ typeToKeyword) as [[t k]|].
  - destruct t; try discriminate;
      try (intros H; injection H as <- <-; eexists; reflexivity).
    destruct (matchAction response) as [[n p]|]; [|discriminate].
    destruct (toToolName n); discriminate.
  - intros H; injection H as <- <-; eexists; reflexivity.
Qed.

Lemma toToolName_text (name : jsstring) tool :
  toToolName name = Some tool -> name = ToolName_text tool.
Proof.
  unfold toToolName. intros H. apply find_some in H as [_ H].
  now destruct (jsstring_eq_dec name (ToolName_text tool)).
Qed.

Lemma toToolName_registered (tool : ToolName) :
  toToolName (ToolName_text tool) = Some tool.
Proof. destruct tool; reflexivity. Qed.

Lemma whiteSpace_noMarker (c : N) (rest : jsstring) :
  isWhiteSpace c = true -> noMarker (c :: rest).
Proof.
  intros Hc type keyword Hin.
  assert (Hne : c <> 84%N /\ c <> 65%N /\ c <> 82%N /\ c <> 69%N).
  { unfold isWhiteSpace, between in Hc. bool_to_prop Hc. lia. }
  destruct Hne as (H1 & H2 & H3 & H4).
  unfold typeToKeyword in Hin. simpl in Hin.
  destruct Hin as [E|[E|[E|[E|[E|[]]]]]]; injection E as <- <-.
  - change (js "THINKING:") with (84%N :: js "HINKING:").
    cbn [startsWith]. apply andb_false_iff; left; now apply N.eqb_neq.
  - change (js "ACTION:") with (65%N :: js "CTION:").
    cbn [startsWith]. apply andb_false_iff; left; now apply N.eqb_neq.
  - change (js "RESPONSE:") with (82%N :: js "ESPONSE:").
    cbn [startsWith]. apply andb_false_iff; left; now apply N.eqb_neq.
  - change (js "ELICITATION:") with (69%N :: js "LICITATION:").
    cbn [startsWith]. apply andb_false_iff; left; now apply N.eqb_neq.
  - change (js "ERROR:") with (69%N :: js "RROR:").
    cbn [startsWith]. apply andb_false_iff; left; now apply N.eqb_neq.
Qed.

Lemma matchAction_here (s name params : jsstring) :
  matchActionHere s = Some (name, params) -> matchAction s = Some (name, params).
Proof. intros H. destruct s; cbn [matchAction]; now rewrite H. Qed.

Lemma find_marker_Action (response : jsstring) k :
  find (fun e => startsWith response (snd e)) typeToKeyword = Some (Action, k) ->
  startsWith response (js "ACTION:") = true.
Proof.
  intros H. apply find_some in H as [Hin Hs]. cbn [snd] in Hs.
  unfold typeToKeyword in Hin. simpl in Hin.
  destruct Hin as [E|[E|[E|[E|[E|[]]]]]]; try discriminate.
  injection E as <-. exact Hs.
Qed.

(** X1.  Classification fails only on replies that start with [ACTION:]:
    either the action-call pattern matches nowhere, or the name it captures
    is not registered.  Every other reply is classified. *)
Theorem classification_fails_only_on_actions (response : jsstring) (e : Exn) :
  mapResponseToLinearActivityContent response = Throw e ->
  startsWith response (js "ACTION:") = true
  /\ ((matchAction response = None /\ e = UnreachableCaseError Action)
      \/ (exists name params,
             matchAction response = Some (name, params)
             /\ isToolName name = false
             /\ e = JsError (js "Invalid tool name: " ++ name))).
Proof.
  unfold mapResponseToLinearActivityContent.
  destruct (find _ typeToKeyword) as [[t k]|] eqn:F; [|discriminate].
  destruct t; try discriminate.
  - intros H. split; [exact (find_marker_Action _ _ F)|].
    destruct (matchAction response) as [[name params]|].
    + destruct (toToolName name) eqn:T; [discriminate|].
      injection H as <-. right. exists name, params.
      unfold isToolName. rewrite T. auto.
    + injection H as <-. left. auto.
  - exfalso. apply find_some in F as [Hin _].
    unfold typeToKeyword in Hin. simpl in Hin.
    repeat (destruct Hin as [E|Hin]; [discriminate|]). destruct Hin.
Qed.

Lemma classification_fails_only_on_actions_witness :
  mapResponseToLinearActivityContent (js "ACTION: getWeather 40.7 -74.0")
  = Throw (UnreachableCaseError Action)
  /\ startsWith (js "ACTION: getWeather 40.7 -74.0") (js "ACTION:") = true.
Proof.
  split; [reflexivity|].
  exact (proj1 (classification_fails_only_on_actions
                  (js "ACTION: getWeather 40.7 -74.0")
                  (UnreachableCaseError Action) eq_refl)).
Defined.

(** X2.  The body of a classified Thought, Response, Elicitation or Error
    has no white space at its start and none at its end. *)
Theorem classified_body_is_trimmed (response : jsstring) type body :
  mapResponseToLinearActivityContent response = Ok (BodyContent type body) ->
  (forall c rest, body = c :: rest -> isWhiteSpace c = false)
  /\ (forall front c, body = front ++ [c] -> isWhiteSpace c = false).
Proof.
  intros H. destruct (classify_Ok_body _ _ _ H) as [text ->].
  apply trim_ends.
Qed.

Lemma classified_body_is_trimmed_witness :
  mapResponseToLinearActivityContent (js "RESPONSE:   It is sunny.  ")
  = Ok (BodyContent Response (js "It is sunny."))
  /\ isWhiteSpace 73 = false /\ isWhiteSpace 46 = false.
Proof.
  split; [reflexivity|].
  destruct (classified_body_is_trimmed (js "RESPONSE:   It is sunny.  ")
              Response (js "It is sunny.") eq_refl) as [Hhead Hlast].
  split.
  - exact (Hhead 73%N (js "t is sunny.") eq_refl).
  - exact (Hlast (js "It is sunny") 46%N eq_refl).
Defined.

(** X3.  A marker counts only at the very start of the reply: an empty
    reply, or one that starts with white space, is a Thought whatever
    follows, so a marker behind leading white space ends no turn. *)
Theorem marker_must_lead (response : jsstring) :
  response = []
  \/ (exists c rest, response = c :: rest /\ isWhiteSpace c = true) ->
  mapResponseToLinearActivityContent response
  = Ok (BodyContent Thought (trim (replace response (js "THINKING:") []))).
Proof.
  intros H. apply classify_unmarked.
  destruct H as [->|(c & rest & -> & Hc)].
  - intros t k Hin. unfold typeToKeyword in Hin. simpl in Hin.
    destruct Hin as [E|[E|[E|[E|[E|[]]]]]]; injection E as <- <-; reflexivity.
  - now apply whiteSpace_noMarker.
Qed.

Lemma marker_must_lead_witness :
  isWhiteSpace 32 = true
  /\ mapResponseToLinearActivityContent (js " RESPONSE: It is sunny.")
     = Ok (BodyContent Thought (js "RESPONSE: It is sunny.")).
Proof.
  split; [reflexivity|].
  exact (marker_must_lead (js " RESPONSE: It is sunny.")
           (or_intror (ex_intro _ 32%N
              (ex_intro _ (js "RESPONSE: It is sunny.") (conj eq_refl eq_refl))))).
Defined.

(** X4.  The Action that the classifier returns is read off a call that
    occurs in the reply, [ACTION:], white space, the name of the tool, and
    the parameter between parentheses; the parameter holds no closing
    parenthesis, so a parameter with parentheses of its own is cut at the
    first one that closes. *)
Theorem action_is_read_off_the_reply (response : jsstring) tool parameter result :
  mapResponseToLinearActivityContent response
  = Ok (ActionContent tool parameter result) ->
  exists before ws params rest,
    parameter = Some params
    /\ response = before ++ js "ACTION:" ++ ws ++ ToolName_text tool
                         ++ 40%N :: params ++ 41%N :: rest
    /\ forallb isWhiteSpace ws = true
    /\ ~ In 41%N params.
Proof.
  intros H.
  destruct (classify_Ok_action _ _ _ _ H) as (name & params & M & T & -> & _ & _).
  apply toToolName_text in T. subst name.
  apply matchAction_leftmost in M
    as (before & here & -> & (ws & rest & -> & Hws & _ & _ & _ & Hp) & _).
  exists before, ws, params, rest. repeat split; auto.
  intros Hin. rewrite forallb_forall in Hp. specialize (Hp _ Hin).
  discriminate.
Qed.

Lemma action_is_read_off_the_reply_witness :
  mapResponseToLinearActivityContent (js "ACTION: getCoordinates(Paris (Texas))")
  = Ok (ActionContent getCoordinates (Some (js "Paris (Texas")) None)
  /\ ~ In 41%N (js "Paris (Texas").
Proof.
  split; [reflexivity|].
  destruct (action_is_read_off_the_reply
              (js "ACTION: getCoordinates(Paris (Texas))") getCoordinates
              (Some (js "Paris (Texas")) None eq_refl)
    as (before & ws & params & rest & E & _ & _ & Hn).
  injection E as <-. exact Hn.
Defined.

(** X5.  Writing a call and classifying it gives the call back: [ACTION:],
    any white space, a registered name and a parameter without closing
    parenthesis between parentheses is classified as that tool with that
    parameter, whatever text follows the call. *)
Theorem written_action_is_classified (tool : ToolName) (ws params rest : jsstring) :
  forallb isWhiteSpace ws = true ->
  params <> [] ->
  forallb (fun c => negb (c =? 41)%N) params = true ->
  mapResponseToLinearActivityContent
    (js "ACTION:" ++ ws ++ ToolName_text tool ++ 40%N :: params ++ 41%N :: rest)
  = Ok (ActionContent tool (Some params) None).
Proof.
  intros Hws Hne Hp.
  rewrite classify_action by apply startsWith_app.
  assert (M : matchActionHere
                (js "ACTION:" ++ ws ++ ToolName_text tool
                    ++ 40%N :: params ++ 41%N :: rest)
              = Some (ToolName_text tool, params)).
  { apply matchActionHere_complete. exists ws, rest.
    repeat split; auto; destruct tool; solve [discriminate | reflexivity]. }
  rewrite (matchAction_here _ _ _ M), toToolName_registered.
  destruct params; [congruence|reflexivity].
Qed.

Lemma written_action_is_classified_witness :
  forallb isWhiteSpace (js "  ") = true
  /\ js "48.85, 2.35" <> []
  /\ forallb (fun c => negb (c =? 41)%N) (js "48.85, 2.35") = true
  /\ mapResponseToLinearActivityContent
       (js "ACTION:  getTime(48.85, 2.35) and then I will answer")
     = Ok (ActionContent getTime (Some (js "48.85, 2.35")) None).
Proof.
  assert (Hne : js "48.85, 2.35" <> []) by discriminate.
  split; [reflexivity|]. split; [exact Hne|]. split; [reflexivity|].
  exact (written_action_is_classified getTime (js "  ") (js "48.85, 2.35")
           (js " and then I will answer") eq_refl Hne eq_refl).
Defined.

(* ================================================================== *)
(** ** Further properties of [executeAction] *)
(* ================================================================== *)

Lemma split_no_sep (sep : N) (s : jsstring) :
  ~ In sep s -> split sep s = [s].
Proof.
  induction s as [|c s IH]; intros H; simpl; [reflexivity|].
  destruct (N.eqb_spec c sep) as [->|Hc]; [exfalso; apply H; now left|].
  rewrite IH; [reflexivity|]. intros Hin. apply H. now right.
Qed.

Lemma split_at_sep (sep : N) (a b : jsstring) :
  ~ In sep a -> split sep (a ++ sep :: b) = a :: split sep b.
Proof.
  induction a as [|c a IH]; intros H; simpl.
  - now rewrite N.eqb_refl.
  - destruct (N.eqb_spec c sep) as [->|Hc]; [exfalso; apply H; now left|].
    rewrite IH; [reflexivity|]. intros Hin. apply H. now right.
Qed.

Lemma removeAll_absent (c : N) (s : jsstring) :
  ~ In c s -> removeAll c s = s.
Proof.
  unfold removeAll. induction s as [|x s IH]; intros H; simpl; [reflexivity|].
  destruct (N.eqb_spec x c) as [->|Hx]; [exfalso; apply H; now left|].
  simpl. rewrite IH; [reflexivity|]. intros Hin. apply H. now right.
Qed.

Lemma removeAll_app (c : N) (a b : jsstring) :
  removeAll c (a ++ b) = removeAll c a ++ removeAll c b.
Proof. unfold removeAll. apply filter_app. Qed.

(** X6.  [executeAction] calls at most one tool, the one its action names,
    and records what that tool answered; when it throws without calling a
    tool it leaves no trace of its own.  It always comes back. *)
Theorem executeAction_calls_one_tool env (tool : ToolName)
        (parameter : option jsstring) (tr : Trace) :
  fst (executeAction env tool parameter tr) <> Diverge
  /\ ((exists e, executeAction env tool parameter tr = (Throw e, tr))
      \/ (exists call,
             snd (executeAction env tool parameter tr)
             = tr ++ [EvTool call (tool_invoke env tr call)]
             /\ tool_of_call call = tool
             /\ forall e, tool_invoke env tr call = inl e ->
                          fst (executeAction env tool parameter tr) = Throw e)).
Proof.
  destruct (executeAction_cases env tool parameter tr)
    as [(call & raw & r & E & Hi & Ht)|[(call & e & E & Hi & Ht)|(e & E)]];
    rewrite E; cbn [fst snd].
  - split; [discriminate|]. right. exists call. rewrite Hi.
    repeat split; auto. discriminate.
  - split; [discriminate|]. right. exists call. rewrite Hi.
    repeat split; auto. intros e' H; now injection H as <-.
  - split; [discriminate|]. left. eauto.
Qed.

(** X7.  [getWeather] and [getTime] reject every parameter without a comma
    before they call anything: one number is not a pair of coordinates. *)
Theorem coordinates_need_a_comma env (parameter : jsstring) (tr : Trace) :
  parameter <> [] -> ~ In 44%N parameter ->
  executeAction env getWeather (Some parameter) tr
  = (Throw (JsError (js "Invalid parameter for getWeather action")), tr)
  /\ executeAction env getTime (Some parameter) tr
     = (Throw (JsError (js "Invalid parameter for getTime action")), tr).
Proof.
  intros Hne Hc. unfold executeAction.
  destruct parameter as [|c p]; [congruence|]. cbn [falsy].
  unfold parseCoordinates. rewrite (split_no_sep _ _ Hc).
  split; reflexivity.
Qed.

Lemma coordinates_need_a_comma_witness :
  js "48.85 2.35" <> [] /\ ~ In 44%N (js "48.85 2.35")
  /\ executeAction parisWorld getWeather (Some (js "48.85 2.35")) []
     = (Throw (JsError (js "Invalid parameter for getWeather action")), []).
Proof.
  assert (Hne : js "48.85 2.35" <> []) by discriminate.
  assert (Hc : ~ In 44%N (js "48.85 2.35")).
  { intros H. vm_compute in H. repeat (destruct H as [H|H]; [discriminate|]).
    exact H. }
  split; [exact Hne|]. split; [exact Hc|].
  exact (proj1 (coordinates_need_a_comma parisWorld (js "48.85 2.35") [] Hne Hc)).
Defined.

(** X8.  [getWeather] and [getTime] look at the first two parts of the
    parameter only: whatever follows a second comma changes nothing. *)
Theorem further_coordinates_are_ignored env (lat long more : jsstring) (tr : Trace) :
  ~ In 44%N lat -> ~ In 44%N long ->
  executeAction env getWeather (Some (lat ++ 44%N :: long ++ 44%N :: more)) tr
  = executeAction env getWeather (Some (lat ++ 44%N :: long)) tr
  /\ executeAction env getTime (Some (lat ++ 44%N :: long ++ 44%N :: more)) tr
     = executeAction env getTime (Some (lat ++ 44%N :: long)) tr.
Proof.
  intros Hlat Hlong. unfold executeAction.
  assert (F1 : falsy (Some (lat ++ 44%N :: long ++ 44%N :: more)) = false)
    by (destruct lat; reflexivity).
  assert (F2 : falsy (Some (lat ++ 44%N :: long)) = false)
    by (destruct lat; reflexivity).
  rewrite F1, F2. unfold parseCoordinates.
  rewrite (split_at_sep _ _ (long ++ 44%N :: more) Hlat),
    (split_at_sep _ _ more Hlong),
    (split_at_sep _ _ long Hlat), (split_no_sep _ _ Hlong).
  cbn [map]. unfold validCoordinates. cbn [nth List.length].
  destruct (List.length (map (fun p => parseFloat (trim p)) (split 44 more)));
    split; reflexivity.
Qed.

Lemma further_coordinates_are_ignored_witness :
  ~ In 44%N (js "48.85") /\ ~ In 44%N (js " 2.35")
  /\ executeAction parisWorld getWeather (Some (js "48.85, 2.35,Paris")) []
     = executeAction parisWorld getWeather (Some (js "48.85, 2.35")) [].
Proof.
  assert (H1 : ~ In 44%N (js "48.85")).
  { intros H. vm_compute in H. repeat (destruct H as [H|H]; [discriminate|]).
    exact H. }
  assert (H2 : ~ In 44%N (js " 2.35")).
  { intros H. vm_compute in H. repeat (destruct H as [H|H]; [discriminate|]).
    exact H. }
  split; [exact H1|]. split; [exact H2|].
  exact (proj1 (further_coordinates_are_ignored parisWorld (js "48.85") (js " 2.35")
                  (js "Paris") [] H1 H2)).
Defined.

(** X9.  [getCoordinates] drops the double quotes of its parameter: a city
    written between quotes and the same city written bare call the tool
    with the same name. *)
Theorem quoted_city_is_unquoted env (city : jsstring) (tr : Trace) :
  city <> [] -> ~ In 34%N city ->
  executeAction env getCoordinates (Some (34%N :: city ++ [34%N])) tr
  = executeAction env getCoordinates (Some city) tr
  /\ snd (executeAction env getCoordinates (Some city) tr)
     = tr ++ [EvTool (CallGetCoordinates city)
                     (tool_invoke env tr (CallGetCoordinates city))].
Proof.
  intros Hne Hq. unfold executeAction.
  destruct city as [|c city]; [congruence|]. cbn [falsy].
  assert (E : removeAll 34 (34%N :: (c :: city) ++ [34%N]) = c :: city).
  { change (34%N :: (c :: city) ++ [34%N])
      with ([34%N] ++ (c :: city) ++ [34%N]).
    rewrite !removeAll_app, (removeAll_absent _ _ Hq).
    cbn. now rewrite app_nil_r. }
  rewrite E, (removeAll_absent _ _ Hq).
  split; [reflexivity|].
  unfold bind, invokeTool.
  destruct (tool_invoke env tr (CallGetCoordinates (c :: city))); reflexivity.
Qed.

Lemma quoted_city_is_unquoted_witness :
  js "Paris" <> [] /\ ~ In 34%N (js "Paris")
  /\ executeAction parisWorld getCoordinates (Some (34%N :: js "Paris" ++ [34%N])) []
     = executeAction parisWorld getCoordinates (Some (js "Paris")) [].
Proof.
  assert (Hne : js "Paris" <> []) by discriminate.
  assert (Hq : ~ In 34%N (js "Paris")).
  { intros H. vm_compute in H. repeat (destruct H as [H|H]; [discriminate|]).
    exact H. }
  split; [exact Hne|]. split; [exact Hq|].
  exact (proj1 (quoted_city_is_unquoted parisWorld (js "Paris") [] Hne Hq)).
Defined.

(* ================================================================== *)
(** ** Further properties of the turn loop *)
(* ================================================================== *)

Lemma toolCalls_app (a b : Trace) : toolCalls (a ++ b) = toolCalls a + toolCalls b.
Proof. unfold toolCalls. now rewrite filter_app, length_app. Qed.

Lemma modelInputs_app (a b : Trace) :
  modelInputs (a ++ b) = modelInputs a ++ modelInputs b.
Proof.
  induction a as [|e a IH]; simpl; [reflexivity|].
  destruct e; simpl; now rewrite ?IH.
Qed.

Ltac close_extension :=
  first [ exists []; now rewrite app_nil_r | eexists; reflexivity ].

Ltac close_terminal :=
  first
    [ solve [eexists [], _; repeat split; reflexivity]
    | solve [eexists [_], _; repeat split; reflexivity]
    | solve [eexists [_; _], _; repeat split; reflexivity] ].

Ltac close_shape rest :=
  exists rest; eexists _, _; rewrite <- ?app_assoc; cbn [app];
  split; [reflexivity|];
  split; [reflexivity|];
  split; [cbn; lia|];
  split; [cbn; lia|];
  split; [close_extension|];
  first [reflexivity | close_terminal].

Section Rounds.

Variable env : Environment.
Variable agentSessionId : jsstring.

(** One round in full: after its model call it calls no model and at most
    one tool, writes at most two activities and only adds to the message
    list; when it sets [taskComplete], the last thing it did was to write
    its one terminal activity. *)
Lemma iteration_shape (messages : list BaseMessage) (tr : Trace) :
  let allMessages := SystemMessage (prompt env) :: messages in
  let reply := model_invoke env tr allMessages in
  exists rest messages' taskComplete,
    try_catch (tryIteration env agentSessionId messages)
              (catchIteration env agentSessionId messages) tr
    = (Ok (messages', taskComplete), tr ++ EvInvoke allMessages reply :: rest)
    /\ modelInputs rest = []
    /\ toolCalls rest <= 1
    /\ List.length (published rest) <= 2
    /\ (exists extra, messages' = messages ++ extra)
    /\ if taskComplete
       then exists front t,
           rest = front ++ [EvCreateAgentActivity agentSessionId t]
           /\ isTerminalType (content_type t) = true
           /\ hasTerminal (published front) = false
       else hasTerminal (published rest) = false.
Proof.
  intros allMessages reply.
  unfold try_catch, tryIteration, callLangGraphAgent, try_catch, invokeModel,
    bind, lift, throw, catchIteration, createAgentActivity, setTimeout, ret.
  fold allMessages. fold reply.
  destruct reply as [e|response]; cbn.
  { close_shape [EvCreateAgentActivity agentSessionId
                   (BodyContent Error
                      (js "Agent error: "
                          ++ js "Anthropic API error: " ++ errorMessage env e))]. }
  destruct (mapResponseToLinearActivityContent response) as [c|e|] eqn:C.
  3:{ now apply classify_total in C. }
  2:{ close_shape [EvCreateAgentActivity agentSessionId
                     (BodyContent Error (js "Agent error: " ++ errorMessage env e))]. }
  destruct c as [t body|tool parameter result].
  - destruct t; cbn.
    + close_shape (@nil Event).
    + close_shape [EvCreateAgentActivity agentSessionId (BodyContent Elicitation body)].
    + close_shape [EvCreateAgentActivity agentSessionId (BodyContent Error body)].
    + close_shape (@nil Event).
    + close_shape [EvCreateAgentActivity agentSessionId (BodyContent Response body)].
    + close_shape [EvCreateAgentActivity agentSessionId (BodyContent Thought body);
                   EvSetTimeout 1000].
  - destruct (executeAction_cases env tool parameter
                ((tr ++ [EvInvoke allMessages (inr response)])
                   ++ [EvCreateAgentActivity agentSessionId
                         (ActionContent tool parameter result)]))
      as [(call & raw & r & -> & _)|[(call & e & -> & _)|(e & ->)]].
    + close_shape [EvCreateAgentActivity agentSessionId
                     (ActionContent tool parameter result);
                   EvTool call (inr raw);
                   EvCreateAgentActivity agentSessionId
                     (ActionContent tool (orNull parameter) (Some r));
                   EvSetTimeout 1000].
    + close_shape [EvCreateAgentActivity agentSessionId
                     (ActionContent tool parameter result);
                   EvTool call (inl e);
                   EvCreateAgentActivity agentSessionId
                     (BodyContent Error (js "Agent error: " ++ errorMessage env e))].
    + close_shape [EvCreateAgentActivity agentSessionId
                     (ActionContent tool parameter result);
                   EvCreateAgentActivity agentSessionId
                     (BodyContent Error (js "Agent error: " ++ errorMessage env e))].
Qed.

End Rounds.

Section Runs.

Variable env : Environment.
Variable agentSessionId : jsstring.

(** The loop in full, from a state in which [taskComplete] is unset. *)
Lemma turnLoop_shape (fuel : nat) :
  forall messages iterations tr,
  exists o more,
    turnLoop env fuel agentSessionId messages false iterations tr
    = (o, tr ++ more)
    /\ toolCalls more <= MAX_ITERATIONS - iterations
    /\ List.length (published more) <= 2 * (MAX_ITERATIONS - iterations)
    /\ Forall (fun m => exists extra,
                   m = SystemMessage (prompt env) :: messages ++ extra)
              (modelInputs more)
    /\ match o with
       | Ok (messages', taskComplete', iterations') =>
           (exists extra, messages' = messages ++ extra)
           /\ if taskComplete'
              then exists front t,
                  more = front ++ [EvCreateAgentActivity agentSessionId t]
                  /\ isTerminalType (content_type t) = true
                  /\ hasTerminal (published front) = false
              else hasTerminal (published more) = false
                   /\ MAX_ITERATIONS <= iterations'
       | Throw _ => False
       | Diverge => True
       end.
Proof.
  induction fuel as [|fuel IH]; intros messages iterations tr;
    destruct (iterations <? MAX_ITERATIONS) eqn:G.
  - cbn [turnLoop negb andb]. rewrite G. exists Diverge, [].
    rewrite app_nil_r. repeat split; cbn; try lia. constructor.
  - rewrite turnLoop_done by (cbn [negb andb]; exact G).
    exists (Ok (messages, false, iterations)), []. rewrite app_nil_r.
    apply Nat.ltb_ge in G.
    repeat split; cbn; try lia; try constructor.
    exists []. now rewrite app_nil_r.
  - apply Nat.ltb_lt in G.
    rewrite (turnLoop_step env agentSessionId fuel messages iterations tr G).
    destruct (iteration_shape env agentSessionId messages tr)
      as (rest & messages' & tc1 & -> & Hin & Htool & Hpub & [extra ->] & Hshape).
    cbn [fst snd].
    set (call := EvInvoke (SystemMessage (prompt env) :: messages)
                          (model_invoke env tr
                             (SystemMessage (prompt env) :: messages))) in *.
    assert (Hcall : modelInputs (call :: rest)
                    = [SystemMessage (prompt env) :: messages]).
    { unfold call. cbn [modelInputs]. now rewrite Hin. }
    destruct tc1.
    + rewrite turnLoop_done by reflexivity.
      exists (Ok (messages ++ extra, true, S iterations)), (call :: rest).
      split; [reflexivity|].
      split; [change (toolCalls (call :: rest)) with (toolCalls rest); lia|].
      split; [change (published (call :: rest)) with (published rest); lia|].
      split.
      { rewrite Hcall. constructor; [|constructor].
        exists []. now rewrite app_nil_r. }
      split; [now exists extra|].
      destruct Hshape as (front & t & -> & Ht & Hf).
      exists (call :: front), t. repeat split; auto.
    + destruct (IH (messages ++ extra) (S iterations) (tr ++ call :: rest))
        as (o & more & -> & Htool2 & Hpub2 & Hin2 & Ho).
      exists o, ((call :: rest) ++ more). rewrite <- app_assoc.
      split; [reflexivity|].
      split.
      { rewrite toolCalls_app.
        change (toolCalls (call :: rest)) with (toolCalls rest). lia. }
      split.
      { rewrite published_app, length_app.
        change (published (call :: rest)) with (published rest). lia. }
      split.
      { rewrite modelInputs_app, Hcall. constructor.
        - exists []. now rewrite app_nil_r.
        - eapply Forall_impl; [|exact Hin2].
          intros m [extra' ->]. exists (extra ++ extra').
          now rewrite <- app_assoc. }
      destruct o as [[[m' tc'] it']|e|]; [|exact Ho|exact I].
      destruct Ho as ([extra' ->] & Ho).
      split; [exists (extra ++ extra'); now rewrite <- app_assoc|].
      destruct tc'.
      * destruct Ho as (front & t & -> & Ht & Hf).
        exists ((call :: rest) ++ front), t. rewrite <- app_assoc.
        split; [reflexivity|]. split; [exact Ht|].
        rewrite published_app, hasTerminal_app.
        change (published (call :: rest)) with (published rest).
        now rewrite Hshape, Hf.
      * destruct Ho as [Hq Hmax]. split; [|exact Hmax].
        rewrite published_app, hasTerminal_app.
        change (published (call :: rest)) with (published rest).
        now rewrite Hshape, Hq.
  - rewrite turnLoop_done by (cbn [negb andb]; exact G).
    exists (Ok (messages, false, iterations)), []. rewrite app_nil_r.
    apply Nat.ltb_ge in G.
    repeat split; cbn; try lia; try constructor.
    exists []. now rewrite app_nil_r.
Qed.

(** Reading the history does nothing but read the store, page after page. *)
Lemma fetchRemaining_reads (fuel : nat) :
  forall allActivities connection hasNext tr,
  exists o more,
    fetchRemaining env fuel agentSessionId allActivities connection hasNext tr
    = (o, tr ++ more)
    /\ Forall (isReadOf agentSessionId) more
    /\ forall e, o <> Throw e.
Proof.
  induction fuel as [|fuel IH]; intros allActivities connection hasNext tr;
    cbn [fetchRemaining];
    destruct (hasNext && negb (falsy (endCursor connection)));
    try (eexists _, []; rewrite app_nil_r; repeat split;
         [constructor|discriminate]).
  unfold bind at 1. unfold activities at 1.
  match goal with
  | |- context [fetchRemaining env fuel agentSessionId ?a ?c ?h ?t] =>
      destruct (IH a c h t) as (o & more & -> & Hm & Ho)
  end.
  eexists o, (_ :: more). rewrite <- app_assoc. repeat split; auto.
  constructor; [reflexivity|exact Hm].
Qed.

Lemma generateMessages_reads (fuel : nat) (tr : Trace) :
  exists o more,
    generateMessagesFromPreviousActivities env fuel agentSessionId tr
    = (o, tr ++ more)
    /\ Forall (isReadOf agentSessionId) more
    /\ more <> []
    /\ forall e, o <> Throw e.
Proof.
  unfold generateMessagesFromPreviousActivities.
  unfold bind at 1. unfold activities at 1. unfold bind.
  match goal with
  | |- context [fetchRemaining env fuel agentSessionId ?a ?c ?h ?t] =>
      destruct (fetchRemaining_reads fuel a c h t) as (o & more & -> & Hm & Ho)
  end.
  destruct o as [all|e|].
  - eexists _, (_ :: more). rewrite <- app_assoc. unfold ret.
    repeat split; try discriminate. constructor; [reflexivity|exact Hm].
  - now destruct (Ho e).
  - eexists _, (_ :: more). rewrite <- app_assoc.
    repeat split; try discriminate. constructor; [reflexivity|exact Hm].
Qed.

End Runs.

Lemma reads_are_silent (agentSessionId : jsstring) (more : Trace) :
  Forall (isReadOf agentSessionId) more ->
  published more = [] /\ toolCalls more = 0 /\ modelInputs more = []
  /\ modelCalls more = 0.
Proof.
  induction 1 as [|e more He _ IH]; [repeat split|].
  destruct e; try destruct He. exact IH.
Qed.

Lemma handleUserPrompt_unfold env fuel agentSessionId userPrompt tr :
  handleUserPrompt env fuel agentSessionId userPrompt tr
  = match generateMessagesFromPreviousActivities env fuel agentSessionId tr with
    | (Ok previous, tr1) =>
        match turnLoop env fuel agentSessionId
                (HumanMessage userPrompt :: previous) false 0 tr1 with
        | (Ok (_, taskComplete, iterations), tr2) =>
            afterLoop agentSessionId taskComplete iterations tr2
        | (Throw e, tr2) => (Throw e, tr2)
        | (Diverge, tr2) => (Diverge, tr2)
        end
    | (Throw e, tr1) => (Throw e, tr1)
    | (Diverge, tr1) => (Diverge, tr1)
    end.
Proof.
  unfold handleUserPrompt, bind.
  destruct (generateMessagesFromPreviousActivities env fuel agentSessionId tr)
    as [[previous|e|] tr1]; try reflexivity.
  destruct (turnLoop env fuel agentSessionId _ false 0 tr1)
    as [[[[m tc] it]|e|] tr2]; reflexivity.
Qed.

(** A run of [handleUserPrompt] in full. *)
Lemma run_shape env fuel agentSessionId userPrompt tr :
  exists emitted,
    snd (handleUserPrompt env fuel agentSessionId userPrompt tr) = tr ++ emitted
    /\ (forall e, fst (handleUserPrompt env fuel agentSessionId userPrompt tr)
                  <> Throw e)
    /\ toolCalls emitted <= MAX_ITERATIONS
    /\ List.length (published emitted) <= 2 * MAX_ITERATIONS + 1
    /\ (forall previous tr1,
           generateMessagesFromPreviousActivities env fuel agentSessionId tr
           = (Ok previous, tr1) ->
           Forall (fun m => exists extra,
                       m = SystemMessage (prompt env)
                           :: HumanMessage userPrompt :: previous ++ extra)
                  (modelInputs emitted))
    /\ (fst (handleUserPrompt env fuel agentSessionId userPrompt tr) = Ok tt ->
        exists front t,
          emitted = front ++ [EvCreateAgentActivity agentSessionId t]
          /\ isTerminalType (content_type t) = true
          /\ hasTerminal (published front) = false).
Proof.
  rewrite handleUserPrompt_unfold.
  destruct (generateMessages_reads env agentSessionId fuel tr)
    as (o1 & m1 & E1 & Hreads & _ & Ho1).
  rewrite E1.
  destruct (reads_are_silent _ _ Hreads) as (Hp1 & Ht1 & Hi1 & _).
  destruct o1 as [previous|e|]; [|now destruct (Ho1 e)|].
  2:{ exists m1. cbn [fst snd]. rewrite Ht1, Hp1.
      split; [reflexivity|]. split; [intros e0 H0; discriminate H0|].
      split; [lia|]. split; [cbn [List.length]; lia|].
      split; [intros previous tr1 H; discriminate H|intros H; discriminate H]. }
  destruct (turnLoop_shape env agentSessionId fuel
              (HumanMessage userPrompt :: previous) 0 (tr ++ m1))
    as (o & more & -> & Htool & Hpub & Hin & Ho).
  rewrite Nat.sub_0_r in Htool, Hpub.
  assert (Hinputs : forall previous' tr1,
             (Ok previous, tr ++ m1) = (Ok previous', tr1) ->
             Forall (fun m => exists extra,
                         m = SystemMessage (prompt env)
                             :: HumanMessage userPrompt :: previous' ++ extra)
                    (modelInputs (m1 ++ more))).
  { intros previous' tr1 H. injection H as <- _.
    rewrite modelInputs_app, Hi1. exact Hin. }
  destruct o as [[[m' tc'] it']|e|]; [|destruct Ho|].
  - rewrite afterLoop_eq. cbn [fst snd]. destruct Ho as (_ & Ho).
    destruct tc'.
    + cbn [negb andb]. rewrite app_nil_r.
      exists (m1 ++ more). rewrite <- app_assoc.
      split; [reflexivity|]. split; [intros e0 H0; discriminate H0|].
      rewrite toolCalls_app, published_app, length_app, Ht1, Hp1.
      split; [cbn [List.length]; lia|]. split; [cbn [List.length]; lia|]. split; [exact Hinputs|].
      intros _. destruct Ho as (front & t & -> & Ht & Hf).
      exists (m1 ++ front), t. rewrite <- app_assoc.
      split; [reflexivity|]. split; [exact Ht|].
      now rewrite published_app, hasTerminal_app, Hp1, Hf.
    + destruct Ho as [Hq Hmax]. apply Nat.leb_le in Hmax.
      cbn [negb andb]. rewrite Hmax.
      exists ((m1 ++ more)
                ++ [EvCreateAgentActivity agentSessionId
                      (BodyContent Error maxIterationsMessage)]).
      rewrite <- !app_assoc.
      split; [reflexivity|]. split; [intros e0 H0; discriminate H0|].
      rewrite !toolCalls_app, !published_app, !length_app, Ht1, Hp1.
      change (toolCalls [EvCreateAgentActivity agentSessionId
                           (BodyContent Error maxIterationsMessage)]) with 0.
      change (published [EvCreateAgentActivity agentSessionId
                           (BodyContent Error maxIterationsMessage)])
        with [BodyContent Error maxIterationsMessage].
      split; [cbn [List.length]; lia|]. split; [cbn [List.length]; lia|].
      split.
      { intros previous' tr1 H. rewrite app_assoc, modelInputs_app.
        cbn [modelInputs]. rewrite app_nil_r. now apply (Hinputs previous' tr1). }
      intros _. exists (m1 ++ more), (BodyContent Error maxIterationsMessage).
      split; [now rewrite <- app_assoc|]. split; [reflexivity|].
      now rewrite published_app, hasTerminal_app, Hp1, Hq.
  - cbn [fst snd]. exists (m1 ++ more). rewrite <- app_assoc.
    split; [reflexivity|]. split; [intros e0 H0; discriminate H0|].
    rewrite toolCalls_app, published_app, length_app, Ht1, Hp1.
    split; [cbn [List.length]; lia|]. split; [cbn [List.length]; lia|]. split; [exact Hinputs|].
    intros H; discriminate H.
Qed.

(** X10.  [handleUserPrompt] contains every failure of the model and of the
    tools: whatever they answer or throw, it does not throw itself. *)
Theorem handleUserPrompt_never_throws env fuel agentSessionId userPrompt tr e :
  fst (handleUserPrompt env fuel agentSessionId userPrompt tr) <> Throw e.
Proof.
  destruct (run_shape env fuel agentSessionId userPrompt tr)
    as (emitted & _ & H & _). apply H.
Qed.

(** X11.  One run writes at most [2 * MAX_ITERATIONS + 1], that is 21,
    activities to the store: at most two in a round and one after the
    loop. *)
Theorem store_writes_bounded env fuel agentSessionId userPrompt tr :
  exists emitted,
    snd (handleUserPrompt env fuel agentSessionId userPrompt tr) = tr ++ emitted
    /\ List.length (published emitted) <= 2 * MAX_ITERATIONS + 1
    /\ 2 * MAX_ITERATIONS + 1 = 21.
Proof.
  destruct (run_shape env fuel agentSessionId userPrompt tr)
    as (emitted & E & _ & _ & H & _).
  exists emitted. repeat split; assumption.
Qed.

(** X12.  One run calls the tools at most [MAX_ITERATIONS] times, once in a
    round at most. *)
Theorem tool_calls_bounded env fuel agentSessionId userPrompt tr :
  exists emitted,
    snd (handleUserPrompt env fuel agentSessionId userPrompt tr) = tr ++ emitted
    /\ toolCalls emitted <= MAX_ITERATIONS.
Proof.
  destruct (run_shape env fuel agentSessionId userPrompt tr)
    as (emitted & E & _ & H & _).
  exists emitted. split; assumption.
Qed.

(** X13.  A run that returns has ended on a terminal activity: the last
    thing it did was to write a Response, an Elicitation or an Error, and it
    wrote no other activity of these types before.  No run ends silently
    and none reports twice. *)
Theorem run_ends_with_one_terminal env fuel agentSessionId userPrompt tr :
  fst (handleUserPrompt env fuel agentSessionId userPrompt tr) = Ok tt ->
  exists front t,
    snd (handleUserPrompt env fuel agentSessionId userPrompt tr)
    = tr ++ front ++ [EvCreateAgentActivity agentSessionId t]
    /\ isTerminalType (content_type t) = true
    /\ hasTerminal (published front) = false.
Proof.
  intros H.
  destruct (run_shape env fuel agentSessionId userPrompt tr)
    as (emitted & E & _ & _ & _ & _ & Hend).
  destruct (Hend H) as (front & t & -> & Ht & Hf).
  exists front, t. repeat split; assumption.
Qed.

Lemma run_ends_with_one_terminal_witness :
  fst (handleUserPrompt unparsableWorld 10 (js "session-1") (js "Weather?") [])
  = Ok tt
  /\ exists front t,
      snd (handleUserPrompt unparsableWorld 10 (js "session-1") (js "Weather?") [])
      = [] ++ front ++ [EvCreateAgentActivity (js "session-1") t]
      /\ isTerminalType (content_type t) = true
      /\ hasTerminal (published front) = false.
Proof.
  assert (H : fst (handleUserPrompt unparsableWorld 10 (js "session-1")
                     (js "Weather?") []) = Ok tt) by (vm_compute; reflexivity).
  split; [exact H|].
  exact (run_ends_with_one_terminal unparsableWorld 10 (js "session-1")
           (js "Weather?") [] H).
Defined.

(** X14.  Every model call of a run sees the system prompt, then the
    user's prompt, then the whole reconstructed history, and after them
    only what the run itself has added: the loop never drops or reorders
    context. *)
Theorem every_model_call_sees_the_prompt env fuel agentSessionId userPrompt tr
        previous tr1 :
  generateMessagesFromPreviousActivities env fuel agentSessionId tr
  = (Ok previous, tr1) ->
  exists emitted,
    snd (handleUserPrompt env fuel agentSessionId userPrompt tr) = tr ++ emitted
    /\ Forall (fun m => exists extra,
                   m = SystemMessage (prompt env)
                       :: HumanMessage userPrompt :: previous ++ extra)
              (modelInputs emitted).
Proof.
  intros H.
  destruct (run_shape env fuel agentSessionId userPrompt tr)
    as (emitted & E & _ & _ & _ & Hin & _).
  exists emitted. split; [exact E|]. exact (Hin previous tr1 H).
Qed.

Lemma every_model_call_sees_the_prompt_witness :
  let s := js "session-1" in
  let reads :=
    [EvActivities s None newerPage;
     EvActivities s (Some (js "cursor-1")) olderPage] in
  let previous :=
    [HumanMessage (js "What is the weather in Paris?");
     AIMessage (js "It is sunny in Paris.")] in
  generateMessagesFromPreviousActivities historyWorld 20 s [] = (Ok previous, reads)
  /\ exists emitted,
      snd (handleUserPrompt historyWorld 20 s (js "And now?") []) = [] ++ emitted
      /\ Forall (fun m => exists extra,
                     m = SystemMessage (prompt historyWorld)
                         :: HumanMessage (js "And now?") :: previous ++ extra)
                (modelInputs emitted).
Proof.
  intros s reads previous.
  split; [reflexivity|].
  exact (every_model_call_sees_the_prompt historyWorld 20 s (js "And now?") []
           previous reads eq_refl).
Defined.

Section RoundEquations.

Variable env : Environment.
Variable agentSessionId : jsstring.

Lemma round_reply (fuel : nat) messages iterations tr response :
  iterations < MAX_ITERATIONS ->
  model_invoke env tr (SystemMessage (prompt env) :: messages) = inr response ->
  turnLoop env (S fuel) agentSessionId messages false iterations tr
  = match
      try_catch
        (c <- lift (mapResponseToLinearActivityContent response) ;;
         match c with
         | BodyContent Thought _ =>
             createAgentActivity agentSessionId c ;;;
             setTimeout 1000%N ;;;
             ret (messages ++ [AIMessage response], false)
         | ActionContent toolName parameter _ =>
             createAgentActivity agentSessionId c ;;;
             toolResult <- executeAction env toolName parameter ;;
             createAgentActivity agentSessionId
               (ActionContent toolName (orNull parameter) (Some toolResult)) ;;;
             setTimeout 1000%N ;;;
             ret (messages ++ [AIMessage response;
                               HumanMessage (js "Tool result: " ++ toolResult)],
                  false)
         | BodyContent Response _
         | BodyContent Error _
         | BodyContent Elicitation _ =>
             createAgentActivity agentSessionId c ;;;
             ret (messages, true)
         | BodyContent _ _ => ret (messages, false)
         end)
        (catchIteration env agentSessionId messages)
        (tr ++ [EvInvoke (SystemMessage (prompt env) :: messages) (inr response)])
    with
    | (Ok st, tr') =>
        turnLoop env fuel agentSessionId (fst st) (snd st) (S iterations) tr'
    | (Throw e, tr') => (Throw e, tr')
    | (Diverge, tr') => (Diverge, tr')
    end.
Proof.
  intros Hit Hm.
  rewrite (turnLoop_step env agentSessionId fuel messages iterations tr Hit).
  unfold try_catch, tryIteration, callLangGraphAgent, try_catch, invokeModel.
  unfold bind at 1 3. rewrite Hm. cbn [of_answer]. reflexivity.
Qed.

End RoundEquations.

(** X15.  A round whose reply is a Thought makes one model call, writes
    the Thought to the store and waits 1000 ms, in this order; it adds the
    reply as it came, marker included, to the conversation as an assistant
    message, and when the budget allows the next thing the loop does is to
    call the model with the conversation so extended. *)
Theorem thought_round env fuel agentSessionId messages iterations tr response body :
  iterations < MAX_ITERATIONS ->
  model_invoke env tr (SystemMessage (prompt env) :: messages) = inr response ->
  mapResponseToLinearActivityContent response = Ok (BodyContent Thought body) ->
  exists rest,
    snd (turnLoop env (S fuel) agentSessionId messages false iterations tr)
    = tr ++ [EvInvoke (SystemMessage (prompt env) :: messages) (inr response);
             EvCreateAgentActivity agentSessionId (BodyContent Thought body);
             EvSetTimeout 1000]
         ++ rest
    /\ turnLoop env (S fuel) agentSessionId messages false iterations tr
       = turnLoop env fuel agentSessionId (messages ++ [AIMessage response]) false
           (S iterations)
           (tr ++ [EvInvoke (SystemMessage (prompt env) :: messages) (inr response);
                   EvCreateAgentActivity agentSessionId (BodyContent Thought body);
                   EvSetTimeout 1000])
    /\ (S iterations < MAX_ITERATIONS -> 0 < fuel ->
        exists reply rest',
          rest = EvInvoke (SystemMessage (prompt env)
                             :: messages ++ [AIMessage response]) reply
                 :: rest').
Proof.
  intros Hit Hm Hc.
  assert (Hstep :
    turnLoop env (S fuel) agentSessionId messages false iterations tr
    = turnLoop env fuel agentSessionId (messages ++ [AIMessage response]) false
        (S iterations)
        (tr ++ [EvInvoke (SystemMessage (prompt env) :: messages) (inr response);
                EvCreateAgentActivity agentSessionId (BodyContent Thought body);
                EvSetTimeout 1000])).
  { rewrite (turnLoop_step env agentSessionId fuel messages iterations tr Hit).
    rewrite (round_thought env agentSessionId messages tr response body Hm Hc).
    reflexivity. }
  match type of Hstep with
  | _ = turnLoop env fuel agentSessionId ?m ?c ?i ?t =>
      destruct (turnLoop_spec env agentSessionId fuel m c i t)
        as (o & more & E & _)
  end.
  exists more. split; [|split; [exact Hstep|]].
  - rewrite Hstep, E. cbn [snd]. now rewrite <- app_assoc.
  - intros Hnext Hfuel. destruct fuel as [|fuel]; [lia|].
    rewrite (turnLoop_step env agentSessionId fuel _ (S iterations) _ Hnext) in E.
    match type of E with
    | context [try_catch (tryIteration env agentSessionId ?m) _ ?t] =>
        destruct (iteration_spec env agentSessionId m t)
          as (rest0 & messages' & tc & E0 & _)
    end.
    rewrite E0 in E. cbn [fst snd] in E.
    match type of E with
    | turnLoop env fuel agentSessionId ?m ?c ?i ?t = _ =>
        destruct (turnLoop_spec env agentSessionId fuel m c i t)
          as (o' & more' & E1 & _)
    end.
    rewrite E1 in E. injection E as _ E.
    rewrite <- app_assoc in E. apply app_inv_head in E.
    cbn [app] in E. subst more. eauto.
Qed.

Lemma thought_round_witness :
  let s := js "session-1" in
  let messages := [HumanMessage (js "Weather?")] in
  let response := js "THINKING: still thinking" in
  0 < MAX_ITERATIONS
  /\ model_invoke thinkingWorld [] (SystemMessage (prompt thinkingWorld) :: messages)
     = inr response
  /\ mapResponseToLinearActivityContent response
     = Ok (BodyContent Thought (js "still thinking"))
  /\ exists rest reply rest',
      snd (turnLoop thinkingWorld 2 s messages false 0 [])
      = [] ++ [EvInvoke (SystemMessage (prompt thinkingWorld) :: messages)
                 (inr response);
               EvCreateAgentActivity s (BodyContent Thought (js "still thinking"));
               EvSetTimeout 1000]
           ++ rest
      /\ rest = EvInvoke (SystemMessage (prompt thinkingWorld)
                            :: messages ++ [AIMessage response]) reply
                :: rest'.
Proof.
  intros s messages response.
  assert (H0 : 0 < MAX_ITERATIONS) by (unfold MAX_ITERATIONS; lia).
  assert (H1 : 1 < MAX_ITERATIONS) by (unfold MAX_ITERATIONS; lia).
  split; [exact H0|]. split; [reflexivity|]. split; [reflexivity|].
  destruct (thought_round thinkingWorld 1 s messages 0 [] response
              (js "still thinking") H0 eq_refl eq_refl)
    as (rest & Htrace & _ & Hnext).
  destruct (Hnext H1 (Nat.lt_0_succ 0)) as (reply & rest' & Hrest).
  exists rest, reply, rest'. split; [exact Htrace|exact Hrest].
Defined.

(** X16.  A round whose reply is a Response, an Elicitation or an Error
    writes it to the store and ends the loop there: no delay follows, the
    reply is not added to the conversation and the model is not called
    again. *)
Theorem terminal_round env fuel agentSessionId messages iterations tr
        response type body :
  iterations < MAX_ITERATIONS ->
  model_invoke env tr (SystemMessage (prompt env) :: messages) = inr response ->
  mapResponseToLinearActivityContent response = Ok (BodyContent type body) ->
  isTerminalType type = true ->
  turnLoop env (S fuel) agentSessionId messages false iterations tr
  = (Ok (messages, true, S iterations),
     tr ++ [EvInvoke (SystemMessage (prompt env) :: messages) (inr response);
            EvCreateAgentActivity agentSessionId (BodyContent type body)]).
Proof.
  intros Hit Hm Hc Ht.
  rewrite (round_reply env agentSessionId fuel messages iterations tr response Hit Hm).
  unfold try_catch, bind, lift. rewrite Hc.
  destruct type; try discriminate;
    unfold createAgentActivity, ret; cbn [fst snd];
    rewrite turnLoop_done by reflexivity;
    rewrite <- !app_assoc; reflexivity.
Qed.

Lemma terminal_round_witness :
  let s := js "session-1" in
  let messages := [HumanMessage (js "And now?")] in
  let response := js "RESPONSE: It is still sunny." in
  0 < MAX_ITERATIONS
  /\ model_invoke historyWorld [] (SystemMessage (prompt historyWorld) :: messages)
     = inr response
  /\ mapResponseToLinearActivityContent response
     = Ok (BodyContent Response (js "It is still sunny."))
  /\ isTerminalType Response = true
  /\ turnLoop historyWorld 5 s messages false 0 []
     = (Ok (messages, true, 1),
        [] ++ [EvInvoke (SystemMessage (prompt historyWorld) :: messages)
                 (inr response);
               EvCreateAgentActivity s
                 (BodyContent Response (js "It is still sunny."))]).
Proof.
  intros s messages response.
  assert (H0 : 0 < MAX_ITERATIONS) by (unfold MAX_ITERATIONS; lia).
  split; [exact H0|]. split; [reflexivity|]. split; [reflexivity|].
  split; [reflexivity|].
  exact (terminal_round historyWorld 4 s messages 0 [] response Response
           (js "It is still sunny.") H0 eq_refl eq_refl eq_refl).
Defined.

(** X18.  When the model call fails, the user reads why: the loop ends with
    the one Error activity "Agent error: Anthropic API error: " followed by
    the message of the failure, or by "Unknown error" when what was thrown
    is not an Error. *)
Theorem model_failure_is_reported env fuel agentSessionId messages iterations tr e :
  iterations < MAX_ITERATIONS ->
  model_invoke env tr (SystemMessage (prompt env) :: messages) = inl e ->
  turnLoop env (S fuel) agentSessionId messages false iterations tr
  = (Ok (messages, true, S iterations),
     tr ++ [EvInvoke (SystemMessage (prompt env) :: messages) (inl e);
            EvCreateAgentActivity agentSessionId
              (BodyContent Error
                 (js "Agent error: Anthropic API error: "
                     ++ match e with
                        | JsError message => message
                        | UnreachableCaseError value =>
                            unreachableCaseMessage env value
                        | NotAnError => js "Unknown error"
                        end))]).
Proof.
  intros Hit Hm.
  rewrite (turnLoop_step env agentSessionId fuel messages iterations tr Hit).
  unfold try_catch.
  rewrite (tryIteration_throws env agentSessionId messages tr _ _
             (ModelFailure env agentSessionId messages tr e Hm)).
  unfold catchIteration, bind, createAgentActivity, ret. cbn [fst snd].
  rewrite turnLoop_done by reflexivity.
  rewrite <- app_assoc. cbn [app errorMessage].
  change (js "Agent error: Anthropic API error: ")
    with (js "Agent error: " ++ js "Anthropic API error: ").
  rewrite <- app_assoc. reflexivity.
Qed.

Lemma model_failure_is_reported_witness :
  let s := js "session-1" in
  let messages := [HumanMessage (js "Weather?")] in
  0 < MAX_ITERATIONS
  /\ model_invoke downWorld [] (SystemMessage (prompt downWorld) :: messages)
     = inl (JsError (js "529 overloaded"))
  /\ turnLoop downWorld 3 s messages false 0 []
     = (Ok (messages, true, 1),
        [] ++ [EvInvoke (SystemMessage (prompt downWorld) :: messages)
                 (inl (JsError (js "529 overloaded")));
               EvCreateAgentActivity s
                 (BodyContent Error
                    (js "Agent error: Anthropic API error: "
                        ++ js "529 overloaded"))]).
Proof.
  intros s messages.
  assert (H0 : 0 < MAX_ITERATIONS) by (unfold MAX_ITERATIONS; lia).
  split; [exact H0|]. split; [reflexivity|].
  exact (model_failure_is_reported downWorld 2 s messages 0 []
           (JsError (js "529 overloaded")) H0 eq_refl).
Defined.

(* ================================================================== *)
(** ** Further properties of the history reconstruction *)
(* ================================================================== *)

(** X19.  A page without a cursor ends the paging even when it announces a
    further page: the history is then built from the first page alone, after
    a single read, and what lies on later pages is left out without an
    error. *)
Theorem missing_cursor_stops_paging env fuel agentSessionId tr :
  falsy (endCursor (session_activities env tr agentSessionId None)) = true ->
  generateMessagesFromPreviousActivities env fuel agentSessionId tr
  = (Ok (map toMessage
           (rev (filter isPromptOrResponse
                   (nodes (session_activities env tr agentSessionId None))))),
     tr ++ [EvActivities agentSessionId None
              (session_activities env tr agentSessionId None)]).
Proof.
  intros H. unfold generateMessagesFromPreviousActivities, bind, activities.
  destruct fuel; cbn [fetchRemaining]; rewrite H, andb_false_r; reflexivity.
Qed.

Lemma missing_cursor_stops_paging_witness :
  hasNextPage (session_activities cursorlessWorld [] (js "session-1") None) = true
  /\ falsy (endCursor (session_activities cursorlessWorld [] (js "session-1") None))
     = true
  /\ generateMessagesFromPreviousActivities cursorlessWorld 5 (js "session-1") []
     = (Ok [AIMessage (js "It is sunny in Paris.")],
        [] ++ [EvActivities (js "session-1") None
                 (session_activities cursorlessWorld [] (js "session-1") None)]).
Proof.
  split; [reflexivity|]. split; [reflexivity|].
  exact (missing_cursor_stops_paging cursorlessWorld 5 (js "session-1") [] eq_refl).
Defined.

Lemma fetchRemaining_endless env agentSessionId :
  (forall tr after,
      hasNextPage (session_activities env tr agentSessionId after) = true
      /\ falsy (endCursor (session_activities env tr agentSessionId after)) = false) ->
  forall fuel allActivities connection tr,
    falsy (endCursor connection) = false ->
    exists reads,
      fetchRemaining env fuel agentSessionId allActivities connection true tr
      = (Diverge, tr ++ reads)
      /\ List.length reads = fuel.
Proof.
  intros Hstore. induction fuel as [|fuel IH];
    intros allActivities connection tr Hc; cbn [fetchRemaining];
    rewrite Hc; cbn [negb andb].
  - exists []. now rewrite app_nil_r.
  - unfold bind at 1. unfold activities at 1.
    destruct (Hstore tr (endCursor connection)) as [Hn Hf].
    rewrite Hn.
    match goal with
    | |- context [fetchRemaining env fuel agentSessionId ?a ?c true ?t] =>
        destruct (IH a c t Hf) as (reads & -> & Hlen)
    end.
    eexists (_ :: reads). rewrite <- app_assoc. split; [reflexivity|].
    simpl. now rewrite Hlen.
Qed.

(** X20.  The paging has no limit of its own: with a store that announces a
    further page, with a cursor, after every page, the reconstruction reads
    on for as long as it is let, and [handleUserPrompt] never gets to call
    the model. *)
Theorem endless_paging_never_returns env agentSessionId userPrompt :
  (forall tr after,
      hasNextPage (session_activities env tr agentSessionId after) = true
      /\ falsy (endCursor (session_activities env tr agentSessionId after)) = false) ->
  forall fuel tr,
    exists reads,
      generateMessagesFromPreviousActivities env fuel agentSessionId tr
      = (Diverge, tr ++ reads)
      /\ List.length reads = S fuel
      /\ handleUserPrompt env fuel agentSessionId userPrompt tr
         = (Diverge, tr ++ reads).
Proof.
  intros Hstore fuel tr.
  assert (G : exists reads,
             generateMessagesFromPreviousActivities env fuel agentSessionId tr
             = (Diverge, tr ++ reads) /\ List.length reads = S fuel).
  { unfold generateMessagesFromPreviousActivities.
    unfold bind at 1. unfold activities at 1.
    destruct (Hstore tr None) as [Hn Hf]. rewrite Hn. unfold bind.
    match goal with
    | |- context [fetchRemaining env fuel agentSessionId ?a ?c true ?t] =>
        destruct (fetchRemaining_endless env agentSessionId Hstore fuel a c t Hf)
          as (reads & -> & Hlen)
    end.
    eexists (_ :: reads). rewrite <- app_assoc. split; [reflexivity|].
    simpl. now rewrite Hlen. }
  destruct G as (reads & E & Hlen). exists reads.
  split; [exact E|]. split; [exact Hlen|].
  rewrite handleUserPrompt_unfold, E. reflexivity.
Qed.

Lemma endlessWorld_store :
  forall tr after,
    hasNextPage (session_activities endlessWorld tr (js "session-1") after) = true
    /\ falsy (endCursor (session_activities endlessWorld tr (js "session-1") after))
       = false.
Proof. intros tr after. split; reflexivity. Defined.

Lemma endless_paging_never_returns_witness :
  (forall tr after,
      hasNextPage (session_activities endlessWorld tr (js "session-1") after) = true
      /\ falsy (endCursor (session_activities endlessWorld tr (js "session-1") after))
         = false)
  /\ exists reads,
      List.length reads = 4
      /\ handleUserPrompt endlessWorld 3 (js "session-1") (js "Weather?") []
         = (Diverge, [] ++ reads).
Proof.
  split; [exact endlessWorld_store|].
  destruct (endless_paging_never_returns endlessWorld (js "session-1")
              (js "Weather?") endlessWorld_store 3 [])
    as (reads & _ & Hlen & Hrun).
  exists reads. split; [exact Hlen|exact Hrun].
Defined.

(** X21.  Reconstructing the history only reads: it asks the store for the
    activities of this session at least once, and it writes no activity and
    calls neither the model nor a tool. *)
Theorem history_only_reads env fuel agentSessionId tr :
  exists reads,
    snd (generateMessagesFromPreviousActivities env fuel agentSessionId tr)
    = tr ++ reads
    /\ reads <> []
    /\ Forall (isReadOf agentSessionId) reads
    /\ published reads = [] /\ modelCalls reads = 0 /\ toolCalls reads = 0.
Proof.
  destruct (generateMessages_reads env agentSessionId fuel tr)
    as (o & reads & E & Hr & Hne & _).
  destruct (reads_are_silent _ _ Hr) as (Hp & Ht & _ & Hm).
  exists reads. rewrite E. repeat split; assumption.
Qed.

(* ================================================================== *)
(** ** Properties of the tools *)
(* ================================================================== *)

Lemma weatherCodes_described :
  Forall (fun e => snd e <> [] /\ snd e <> js "unknown weather")
         Tools.weatherCodes.
Proof.
  unfold Tools.weatherCodes.
  repeat (constructor;
          [split; intros H; vm_compute in H; discriminate H|]).
  constructor.
Qed.

Lemma lookupCode_Some (code : Tools.Code) (description : jsstring) :
  Tools.lookupCode code = Some description ->
  exists n, code = Tools.Integer n /\ In (n, description) Tools.weatherCodes.
Proof.
  destruct code as [n|]; [|discriminate]. cbn [Tools.lookupCode].
  destruct (find _ Tools.weatherCodes) as [[k d]|] eqn:F; [|discriminate].
  intros H; injection H as <-. apply find_some in F as [Hin Hk]. cbn [fst] in Hk.
  apply N.eqb_eq in Hk. subst k. eauto.
Qed.

Lemma lookupCode_None (n : N) :
  Tools.lookupCode (Tools.Integer n) = None ->
  ~ In n (map fst Tools.weatherCodes).
Proof.
  cbn [Tools.lookupCode].
  destruct (find _ Tools.weatherCodes) as [[k d]|] eqn:F; [discriminate|].
  intros _ Hin. apply in_map_iff in Hin as ([k d] & <- & Hin).
  pose proof (find_none _ _ F _ Hin) as H. cbn [fst] in H.
  now rewrite N.eqb_refl in H.
Qed.

Lemma weatherCodes_found :
  Forall (fun e => Tools.getWeatherDescription (Tools.Integer (fst e)) = snd e)
         Tools.weatherCodes.
Proof.
  unfold Tools.weatherCodes.
  repeat (constructor; [vm_compute; reflexivity|]). constructor.
Qed.

(** X22.  None of the three lookups throws: whatever the request does, be
    it rejected, answered with an error status, with a body that does not
    parse or with an empty one, the lookup returns a value. *)
Theorem lookups_never_throw env fetchCoordinates fetchWeather fetchTime
        (city_name : jsstring) (latitude longitude : number) :
  (exists c, Tools.getCoordinatesImpl env fetchCoordinates city_name = Ok c)
  /\ (exists s, Tools.getWeatherImpl env fetchWeather latitude longitude = Ok s)
  /\ (exists s, Tools.getTimeImpl env fetchTime latitude longitude = Ok s).
Proof.
  unfold Tools.getCoordinatesImpl, Tools.getWeatherImpl, Tools.getTimeImpl,
    Tools.attempt, Tools.andThen, Tools.awaited.
  split; [|split].
  - destruct (fetchCoordinates city_name) as [e|response]; [eauto|].
    destruct (Tools.ok response); cbn [negb]; [|eauto].
    destruct (Tools.json response) as [e|[[|place others]|]]; eauto.
  - destruct (fetchWeather latitude longitude) as [e|response]; [eauto|].
    destruct (Tools.json response) as [e|[[current|]|]]; eauto.
  - destruct (fetchTime latitude longitude) as [e|response]; [eauto|].
    destruct (Tools.ok response); cbn [negb]; [|eauto].
    destruct (Tools.json response) as [e|[d|]]; eauto.
Qed.

(** X23.  [getCoordinatesImpl] returns coordinates exactly when the request
    is answered with an ok status and a body that lists at least one hit;
    the coordinates are those of the first hit, read with [parseFloat] and
    not checked, so that a hit without usable numbers gives [NaN] and no
    error. *)
Theorem coordinates_come_from_the_first_hit env fetch (city_name : jsstring)
        (latitude longitude : number) (displayName : jsstring) :
  Tools.getCoordinatesImpl env fetch city_name
  = Ok (Tools.Located latitude longitude displayName)
  <-> exists response place others,
      fetch city_name = inr response
      /\ Tools.ok response = true
      /\ Tools.json response = inr (Some (place :: others))
      /\ latitude = parseFloat (Tools.lat place)
      /\ longitude = parseFloat (Tools.lon place)
      /\ displayName = Tools.display_name place.
Proof.
  unfold Tools.getCoordinatesImpl, Tools.attempt, Tools.andThen, Tools.awaited.
  split.
  - destruct (fetch city_name) as [e|response]; [discriminate|].
    destruct (Tools.ok response) eqn:Hok; cbn [negb]; [|discriminate].
    destruct (Tools.json response) as [e|[[|place others]|]] eqn:Hj;
      try discriminate.
    intros H; injection H as <- <- <-.
    exists response, place, others. repeat split; auto.
  - intros (response & place & others & -> & -> & -> & -> & -> & ->).
    reflexivity.
Qed.

Lemma coordinates_come_from_the_first_hit_witness :
  Tools.getCoordinatesImpl parisWorld Tools.geocodingService (js "Paris")
  = Ok (Tools.Located NaN (NumberOf (js "2.35")) (js "Paris, France")).
Proof.
  apply (proj2 (coordinates_come_from_the_first_hit parisWorld
                  Tools.geocodingService (js "Paris")
                  NaN (NumberOf (js "2.35")) (js "Paris, France"))).
  eexists _, _, _. repeat split.
Defined.

(** X24.  [getWeatherImpl] does not look at the status of the response:
    only the body counts, so an answer with an error status whose body
    parses is reported like a successful one. *)
Theorem weather_ignores_the_status env fetch fetch'
        (latitude longitude : number) response response' :
  fetch latitude longitude = inr response ->
  fetch' latitude longitude = inr response' ->
  Tools.json response = Tools.json response' ->
  Tools.getWeatherImpl env fetch latitude longitude
  = Tools.getWeatherImpl env fetch' latitude longitude.
Proof.
  intros H H' Hj. unfold Tools.getWeatherImpl, Tools.andThen, Tools.awaited.
  now rewrite H, H', Hj.
Qed.

Lemma weather_ignores_the_status_witness :
  let successful (latitude longitude : number) :=
    inr {| Tools.ok := true; Tools.status := 200; Tools.statusText := js "OK";
           Tools.json := inr (Some (Some {| Tools.temperature_2m := js "18.2";
                                            Tools.weathercode := Tools.Integer 2 |})) |}
    : Exn + Tools.HttpResponse (option (option Tools.Current)) in
  Tools.getWeatherImpl parisWorld Tools.failingWeatherService NaN NaN
  = Tools.getWeatherImpl parisWorld successful NaN NaN
  /\ Tools.getWeatherImpl parisWorld Tools.failingWeatherService NaN NaN
     = Ok (js "18.2" ++ 176%N :: js "C, partly cloudy").
Proof.
  intros successful. split; [|reflexivity].
  exact (weather_ignores_the_status parisWorld Tools.failingWeatherService
           successful NaN NaN _ _ eq_refl eq_refl eq_refl).
Defined.

(** X25.  [getWeatherDescription], given a number as its type says,
    always describes: the integers of the table get the description written
    under them, none of which is empty, and every other number (an integer
    that is not in the table, or a number that is not an integer from 0),
    and only those, get "unknown weather". *)
Theorem weather_description_total (code : Tools.Code) :
  Tools.getWeatherDescription code <> []
  /\ (Tools.getWeatherDescription code = js "unknown weather"
      <-> forall n, code = Tools.Integer n ->
                    ~ In n (map fst Tools.weatherCodes))
  /\ (forall n description,
         code = Tools.Integer n ->
         In (n, description) Tools.weatherCodes ->
         Tools.getWeatherDescription code = description).
Proof.
  assert (Hfound : forall n description,
             code = Tools.Integer n ->
             In (n, description) Tools.weatherCodes ->
             Tools.getWeatherDescription code = description).
  { intros n description -> Hin. pose proof weatherCodes_found as Hall.
    rewrite Forall_forall in Hall. exact (Hall _ Hin). }
  revert Hfound. unfold Tools.getWeatherDescription. intros Hfound.
  destruct (Tools.lookupCode code) as [d|] eqn:L.
  - destruct (lookupCode_Some _ _ L) as (n & -> & Hin).
    pose proof weatherCodes_described as Hall.
    rewrite Forall_forall in Hall. destruct (Hall _ Hin) as [Hne Hunk].
    cbn [snd] in Hne, Hunk.
    destruct d as [|c d]; [congruence|]. cbn [orNull falsy].
    split; [discriminate|]. split; [|exact Hfound].
    split; [congruence|]. intros Hn. exfalso. apply (Hn n eq_refl).
    apply in_map_iff. exists (n, c :: d). auto.
  - cbn [orNull falsy].
    split; [discriminate|]. split; [|exact Hfound].
    split; [|reflexivity]. intros _ n ->. exact (lookupCode_None _ L).
Qed.

(** The codes 45 and 46, and a number that is no integer. *)
Example weather_descriptions :
  Tools.getWeatherDescription (Tools.Integer 45) = js "fog"
  /\ Tools.getWeatherDescription (Tools.Integer 46) = js "unknown weather"
  /\ Tools.getWeatherDescription Tools.OtherNumber = js "unknown weather".
Proof. repeat split. Qed.

(* ================================================================== *)
(** ** Lenient coordinates *)
(* ================================================================== *)

Lemma digit_facts (d : N) :
  isDigit d = true ->
  isWhiteSpace d = false /\ d <> 44%N /\ (d =? 43)%N = false /\ (d =? 45)%N = false.
Proof.
  intros H. unfold isDigit, between in H. bool_to_prop H.
  repeat split.
  - destruct (isWhiteSpace d) eqn:E; [exfalso|reflexivity].
    unfold isWhiteSpace, between in E. bool_to_prop E. lia.
  - lia.
  - apply N.eqb_neq. lia.
  - apply N.eqb_neq. lia.
Qed.

Lemma parseFloat_digit (d : N) (rest : jsstring) :
  isDigit d = true ->
  parseFloat (trim (d :: rest)) = NumberOf (d :: trimEnd rest).
Proof.
  intros H. destruct (digit_facts d H) as (Hws & _ & Hplus & Hminus).
  assert (Hstart : forall t, trimStart (d :: t) = d :: t).
  { intros t. unfold trimStart. cbn [span]. now rewrite Hws. }
  unfold trim. rewrite Hstart, (trimEnd_cons _ _ Hws).
  unfold parseFloat. rewrite Hstart.
  unfold startsLiteral, startsUnsignedLiteral. rewrite Hplus, Hminus, H.
  cbn [orb]. now rewrite orb_true_r.
Qed.

(** X26.  [getWeather] checks only how each of the two parts begins: when
    both begin with a digit the tool is called, whatever text follows the
    digits, and it is called with the numbers that [parseFloat] reads at the
    beginning of the parts. *)
Theorem coordinates_are_checked_leniently env (d1 d2 : N) (rest1 rest2 : jsstring)
        (tr : Trace) :
  isDigit d1 = true -> isDigit d2 = true ->
  ~ In 44%N rest1 -> ~ In 44%N rest2 ->
  snd (executeAction env getWeather
         (Some (d1 :: rest1 ++ 44%N :: d2 :: rest2)) tr)
  = tr ++ [EvTool (CallGetWeather (NumberOf (d1 :: trimEnd rest1))
                                  (NumberOf (d2 :: trimEnd rest2)))
                  (tool_invoke env tr
                     (CallGetWeather (NumberOf (d1 :: trimEnd rest1))
                                     (NumberOf (d2 :: trimEnd rest2))))].
Proof.
  intros H1 H2 Hr1 Hr2.
  destruct (digit_facts d1 H1) as (_ & Hc1 & _).
  destruct (digit_facts d2 H2) as (_ & Hc2 & _).
  unfold executeAction. cbn [falsy]. unfold parseCoordinates.
  change (d1 :: rest1 ++ 44%N :: d2 :: rest2)
    with ((d1 :: rest1) ++ 44%N :: d2 :: rest2).
  rewrite split_at_sep by (intros [E|E]; [congruence|contradiction]).
  rewrite split_no_sep by (intros [E|E]; [congruence|contradiction]).
  cbn [map]. rewrite !parseFloat_digit by assumption.
  unfold validCoordinates. cbn [List.length nth isNaN negb andb Nat.leb].
  unfold bind, invokeTool.
  destruct (tool_invoke env tr _); reflexivity.
Qed.

Lemma coordinates_are_checked_leniently_witness :
  isDigit 52 = true /\ isDigit 50 = true
  /\ ~ In 44%N (js "8.85 North") /\ ~ In 44%N (js ".35 East")
  /\ snd (executeAction parisWorld getWeather
            (Some (js "48.85 North,2.35 East")) [])
     = [] ++ [EvTool (CallGetWeather (NumberOf (js "48.85 North"))
                                     (NumberOf (js "2.35 East")))
                     (inl (JsError (js "getWeather is not a function")))].
Proof.
  assert (Hr1 : ~ In 44%N (js "8.85 North")).
  { intros H. vm_compute in H. repeat (destruct H as [H|H]; [discriminate|]).
    exact H. }
  assert (Hr2 : ~ In 44%N (js ".35 East")).
  { intros H. vm_compute in H. repeat (destruct H as [H|H]; [discriminate|]).
    exact H. }
  split; [reflexivity|]. split; [reflexivity|].
  split; [exact Hr1|]. split; [exact Hr2|].
  exact (coordinates_are_checked_leniently parisWorld 52 50 (js "8.85 North")
           (js ".35 East") [] eq_refl eq_refl Hr1 Hr2).
Defined.

(* ================================================================== *)
(** ** The tools as the agent client calls them *)
(* ================================================================== *)

Ltac close_noToolResult :=
  first
    [ solve [eexists [_], _, _; rewrite <- ?app_assoc; cbn [app];
             split; [reflexivity|repeat constructor]]
    | solve [eexists [_; _], _, _; rewrite <- ?app_assoc; cbn [app];
             split; [reflexivity|repeat constructor]]
    | solve [eexists [_; _; _], _, _; rewrite <- ?app_assoc; cbn [app];
             split; [reflexivity|repeat constructor]]
    | solve [eexists [_; _; _; _], _, _; rewrite <- ?app_assoc; cbn [app];
             split; [reflexivity|repeat constructor]] ].

Section ThrowingTools.

Variable env : Environment.
Variable agentSessionId : jsstring.
Hypothesis tools_throw : toolsThrow env.

Lemma executeAction_throws tool parameter tr :
  exists e, fst (executeAction env tool parameter tr) = Throw e
            /\ (snd (executeAction env tool parameter tr) = tr
                \/ exists call,
                    snd (executeAction env tool parameter tr)
                    = tr ++ [EvTool call (inl e)]
                    /\ tool_of_call call = tool).
Proof.
  destruct (executeAction_cases env tool parameter tr)
    as [(call & raw & r & _ & Hi & _)|[(call & e & E & _ & Ht)|(e & E)]].
  - destruct (tools_throw tr call) as [e He]. congruence.
  - exists e. rewrite E. cbn [fst snd]. split; [reflexivity|]. right. eauto.
  - exists e. rewrite E. cbn [fst snd]. auto.
Qed.

Lemma iteration_noToolResult (messages : list BaseMessage) (tr : Trace) :
  exists rest messages' taskComplete,
    try_catch (tryIteration env agentSessionId messages)
              (catchIteration env agentSessionId messages) tr
    = (Ok (messages', taskComplete), tr ++ rest)
    /\ Forall noToolResult rest.
Proof.
  unfold try_catch, tryIteration, callLangGraphAgent, try_catch, invokeModel,
    bind, lift, throw, catchIteration, createAgentActivity, setTimeout, ret.
  destruct (model_invoke env tr (SystemMessage (prompt env) :: messages))
    as [e|response]; cbn.
  { close_noToolResult. }
  destruct (mapResponseToLinearActivityContent response) as [c|e|] eqn:C.
  3:{ now apply classify_total in C. }
  2:{ close_noToolResult. }
  destruct c as [t body|tool parameter result].
  - destruct t; cbn; close_noToolResult.
  - destruct (classify_Ok_action _ _ _ _ C) as (_ & _ & _ & _ & _ & _ & ->).
    destruct (executeAction_cases env tool parameter
                ((tr ++ [EvInvoke (SystemMessage (prompt env) :: messages)
                           (inr response)])
                   ++ [EvCreateAgentActivity agentSessionId
                         (ActionContent tool parameter None)]))
      as [(call & raw & r & _ & Hi & _)|[(call & e & -> & _)|(e & ->)]].
    + match type of Hi with
      | tool_invoke env ?t _ = _ => destruct (tools_throw t call) as [e He]
      end.
      congruence.
    + close_noToolResult.
    + close_noToolResult.
Qed.

Lemma turnLoop_noToolResult (fuel : nat) :
  forall messages taskComplete iterations tr,
  exists o more,
    turnLoop env fuel agentSessionId messages taskComplete iterations tr
    = (o, tr ++ more)
    /\ Forall noToolResult more.
Proof.
  induction fuel as [|fuel IH]; intros messages taskComplete iterations tr;
    destruct (negb taskComplete && (iterations <? MAX_ITERATIONS)) eqn:G;
    try (rewrite (turnLoop_done env agentSessionId _ _ _ _ _ G);
         eexists _, []; rewrite app_nil_r; split; [reflexivity|constructor]).
  - cbn [turnLoop]. rewrite G. exists Diverge, []. rewrite app_nil_r.
    split; [reflexivity|constructor].
  - apply andb_true_iff in G as [Gt G]. apply Nat.ltb_lt in G.
    apply negb_true_iff in Gt. subst taskComplete.
    rewrite (turnLoop_step env agentSessionId fuel messages iterations tr G).
    destruct (iteration_noToolResult messages tr)
      as (rest & messages' & tc & -> & Hrest).
    cbn [fst snd].
    destruct (IH messages' tc (S iterations) (tr ++ rest))
      as (o & more & -> & Hmore).
    exists o, (rest ++ more). rewrite <- app_assoc.
    split; [reflexivity|]. apply Forall_app. split; assumption.
Qed.

End ThrowingTools.

Lemma reads_noToolResult (agentSessionId : jsstring) (more : Trace) :
  Forall (isReadOf agentSessionId) more -> Forall noToolResult more.
Proof.
  apply Forall_impl. intros e He. destruct e; try destruct He. exact I.
Qed.


Lemma exportedTools_throw replies store :
  toolsThrow (scripted replies exportedTools store).
Proof. intros tr call. eexists. reflexivity. Defined.


(** The run on the reply [ACTION: getCoordinates(Paris)]: the Action is
    announced, the call of the exported tool throws, and the run ends with
    the Error; the Action with its result is not written. *)
Example coordinates_run :
  let s := js "session-1" in
  handleUserPrompt coordinatesWorld 10 s (js "Where is Paris?") []
  = (Ok tt,
     [EvActivities s None (emptyStore None);
      EvInvoke [SystemMessage (prompt coordinatesWorld);
                HumanMessage (js "Where is Paris?")]
               (inr (js "ACTION: getCoordinates(Paris)"));
      EvCreateAgentActivity s
        (ActionContent getCoordinates (Some (js "Paris")) None);
      EvTool (CallGetCoordinates (js "Paris"))
             (inl (JsError (js "getCoordinates is not a function")));
      EvCreateAgentActivity s
        (BodyContent Error
           (js "Agent error: getCoordinates is not a function"))]).
Proof. vm_compute. reflexivity. Qed.
